(** * proposal-assistant: the controller and renderer of [index.tsx]

    A shallow embedding of the TypeScript module [src/index.tsx]: the
    HTML escaping, the clean-up of the model's answer before
    [JSON.parse], the renderer [displayResults] / [displayError] /
    [setLoading] and the click handler [handleGenerateClick].

    Strings are JavaScript strings: sequences of UTF-16 code units, here
    [list N].  Regular expressions without the [u] flag, [trim] and
    [replace] all work on code units, so nothing is lost. *)

From Stdlib Require Import List NArith Ascii String Bool Arith Lia Floats.
Import ListNotations.

(** ** JavaScript strings *)

Definition jsstring := list N.

(** An ASCII literal of the source as a JavaScript string. *)
Definition lit (s : string) : jsstring :=
  List.map N_of_ascii (list_ascii_of_string s).

(** The quotation mark, which a literal of this file cannot hold. *)
Definition dquote : jsstring := [34%N].

Definition AMP : N := 38.
Definition LT : N := 60.
Definition GT : N := 62.
Definition QUOT : N := 34.
Definition APOS : N := 39.
Definition BACKTICK : N := 96.

(** [p] is a prefix of [s]: what is left of [s] behind it. *)
Fixpoint strip_prefix (p s : jsstring) : option jsstring :=
  match p, s with
  | [], _ => Some s
  | _ :: _, [] => None
  | a :: p', b :: s' => if N.eqb a b then strip_prefix p' s' else None
  end.

Definition starts_with (p s : jsstring) : bool :=
  match strip_prefix p s with Some _ => true | None => false end.

(** [s.includes(p)]: [p] occurs in [s]. *)
Fixpoint includes (p s : jsstring) : bool :=
  starts_with p s ||
  match s with
  | [] => false
  | _ :: r => includes p r
  end.

(** ** escapeHtml (index.tsx, lines 186-193) *)

(** [s.replace(/c/g, by)] for a one-character pattern and a replacement
    without [$]: every occurrence of [c], left to right. *)
Definition replace_char (c : N) (by_ : jsstring) (s : jsstring) : jsstring :=
  flat_map (fun x => if N.eqb x c then by_ else [x]) s.

Definition escapeHtml (unsafe : jsstring) : jsstring :=
  replace_char APOS (lit "&#039;")
    (replace_char QUOT (lit "&quot;")
      (replace_char GT (lit "&gt;")
        (replace_char LT (lit "&lt;")
          (replace_char AMP (lit "&amp;") unsafe)))).

(** One character of [escapeHtml]'s result. *)
Definition escape_char (x : N) : jsstring :=
  if N.eqb x AMP then lit "&amp;"
  else if N.eqb x LT then lit "&lt;"
  else if N.eqb x GT then lit "&gt;"
  else if N.eqb x QUOT then lit "&quot;"
  else if N.eqb x APOS then lit "&#039;"
  else [x].

(** The five entities [escapeHtml] writes, each with the character it
    stands for. *)
Definition entities : list (jsstring * N) :=
  [ (lit "&amp;", AMP); (lit "&lt;", LT); (lit "&gt;", GT);
    (lit "&quot;", QUOT); (lit "&#039;", APOS) ].

(** The entity that starts the text, if one does: the character it
    decodes to and how many code units it takes. *)
Fixpoint entity_in (es : list (jsstring * N)) (s : jsstring) : option (N * nat) :=
  match es with
  | [] => None
  | (e, c) :: es' =>
      if starts_with e s then Some (c, List.length e) else entity_in es' s
  end.

Definition entity_at (s : jsstring) : option (N * nat) := entity_in entities s.

(** HTML entity decoding, one pass from the left, on the five entities
    above (the decoder of the claim, not a function of the source).  [skip]
    counts the code units of an entity still to be passed over. *)
Fixpoint unescape_from (skip : nat) (s : jsstring) : jsstring :=
  match s with
  | [] => []
  | x :: r =>
      match skip with
      | S k => unescape_from k r
      | O =>
          match entity_at s with
          | Some (c, n) => c :: unescape_from (Nat.pred n) r
          | None => x :: unescape_from 0 r
          end
      end
  end.

Definition unescapeHtml (s : jsstring) : jsstring := unescape_from 0 s.

(** The characters that open or close markup or an attribute value. *)
Definition is_markup_char (c : N) : bool :=
  N.eqb c LT || N.eqb c GT || N.eqb c QUOT || N.eqb c APOS.

(** Every [&] of the text starts one of the five entities. *)
Fixpoint every_amp_starts_entity (s : jsstring) : bool :=
  match s with
  | [] => true
  | x :: r =>
      (if N.eqb x AMP then existsb (fun e => starts_with (fst e) s) entities else true)
      && every_amp_starts_entity r
  end.

Definition injective {A B : Type} (f : A -> B) : Prop :=
  forall x y, f x = f y -> x = y.

(** ** Whitespace, trim and the fence clean-up (index.tsx, line 99) *)

(** WhiteSpace and LineTerminator of ECMAScript: what [\s] matches and
    what [trim] removes. *)
Definition is_ws (c : N) : bool :=
  existsb (N.eqb c)
    [9; 10; 11; 12; 13; 32; 160; 5760; 8232; 8233; 8239; 8287; 12288; 65279]%N
  || (N.leb 8192 c && N.leb c 8202).

(** [s.trimStart()] *)
Fixpoint skip_ws (s : jsstring) : jsstring :=
  match s with
  | [] => []
  | c :: r => if is_ws c then skip_ws r else s
  end.

(** [s.trim()] *)
Definition trim (s : jsstring) : jsstring := rev (skip_ws (rev (skip_ws s))).

Definition fence : jsstring := [BACKTICK; BACKTICK; BACKTICK].
Definition fence_json : jsstring := fence ++ lit "json".

(** How many code units [\s*] takes: the whole run of whitespace. *)
Fixpoint ws_run (s : jsstring) : nat :=
  match s with
  | [] => 0
  | c :: r => if is_ws c then S (ws_run r) else 0
  end.

(** The match of [/^```json\s*|```\s*$/] that starts at the current
    position, as its length.  [at_start] tells whether the position is the
    start of the input: there is no [m] flag, so [^] matches only there and
    [$] only at the end of the input.  The first alternative is tried
    first; its [\s*] is greedy and nothing follows it.  The second one
    needs the end of the input right after the whitespace. *)
Definition fence_match (at_start : bool) (s : jsstring) : option nat :=
  match (if at_start then strip_prefix fence_json s else None) with
  | Some r => Some (List.length fence_json + ws_run r)
  | None =>
      match strip_prefix fence s with
      | Some r => if forallb is_ws r then Some (List.length fence + List.length r) else None
      | None => None
      end
  end.

(** [s.replace(/^```json\s*|```\s*$/g, '')]: the scan of a global
    replace.  At each position not inside a match the pattern is tried; a
    match is dropped ([skip] counts what is left of it) and the scan goes
    on behind it; otherwise the character is kept. *)
Fixpoint replace_fences (at_start : bool) (skip : nat) (s : jsstring) : jsstring :=
  match s with
  | [] => []
  | x :: r =>
      match skip with
      | S k => replace_fences false k r
      | O =>
          match fence_match at_start s with
          | Some (S k) => replace_fences false k r
          | _ => x :: replace_fences false 0 r
          end
      end
  end.

(** [response.text.replace(/^```json\s*|```\s*$/g, '').trim()] *)
Definition cleanText (text : jsstring) : jsstring :=
  trim (replace_fences true 0 text).

Definition NL : jsstring := [10%N].

(** A character that is neither whitespace nor a backtick. *)
Definition plain_char (c : N) : bool := negb (is_ws c) && negb (N.eqb c BACKTICK).

(** The text is empty, or its first and its last character are plain:
    it is trimmed and no fence starts or ends it.  Every JSON text is
    such. *)
Definition plain_ends (s : jsstring) : bool :=
  match s with
  | [] => true
  | c :: _ => plain_char c && plain_char (last s 0%N)
  end.

(** A body in its optional fences, with whitespace where the pattern
    allows it. *)
Definition fenced (lead trail : bool) (w1 w2 w3 body : jsstring) : jsstring :=
  (if lead then fence_json ++ w1 else w1) ++ body ++
  (if trail then w2 ++ fence ++ w3 else w2).



(** ** Values and exceptions *)

(** What [JSON.parse] returns.  Numbers are IEEE 754 doubles.  In the
    property list of an object a later entry for a key overrides an
    earlier one, as [JSON.parse] does for a repeated key. *)
#[local] Unset Elimination Schemes.
Inductive JSON : Type :=
| JNull
| JBool (b : bool)
| JNum (x : float)
| JStr (s : jsstring)
| JArr (items : list JSON)
| JObj (props : list (jsstring * JSON)).
#[local] Set Elimination Schemes.

(** The errors the engine itself raises in this module: three TypeErrors
    and the SyntaxError of [JSON.parse]. *)
Inductive native_error : Type :=
| ReadOfNullish   (* a property read on null or undefined *)
| NotAFunction    (* a call of something that is not a function *)
| NotCoercible    (* an object without a primitive value in a comparison *)
| JsonSyntax.     (* JSON.parse on a text that is not JSON *)

(** What a [throw] carries, as far as [instanceof Error] and [.message]
    can tell. *)
Inductive exn : Type :=
| Native (why : native_error)
| ErrorObj (message : jsstring)
| NotAnError.

Inductive result (A : Type) : Type :=
| Ok (a : A)
| Throw (e : exn).

Arguments Ok {A} a.
Arguments Throw {A} e.

Definition bind_result {A B : Type} (r : result A) (k : A -> result B) : result B :=
  match r with
  | Ok a => k a
  | Throw e => Throw e
  end.

Notation "'let*' x ':=' r 'in' k" := (bind_result r (fun x => k))
  (at level 10, x name, r at level 100, k at level 200).

(** [xs.map(f).join('')] for an [f] that builds strings: left to right, up
    to the first throw. *)
Fixpoint map_join {A : Type} (f : A -> result jsstring) (xs : list A) : result jsstring :=
  match xs with
  | [] => Ok []
  | x :: rest =>
      let* h := f x in
      let* t := map_join f rest in
      Ok (h ++ t)
  end.

Fixpoint str_eqb (s t : jsstring) : bool :=
  match s, t with
  | [], [] => true
  | a :: s', b :: t' => N.eqb a b && str_eqb s' t'
  | _, _ => false
  end.

Fixpoint own_property (key : jsstring) (props : list (jsstring * JSON)) : option JSON :=
  match props with
  | [] => None
  | (k, v) :: rest =>
      match own_property key rest with
      | Some later => Some later
      | None => if str_eqb k key then Some v else None
      end
  end.

(** [data.key] for a key that no prototype defines ([painPoints],
    [proposedSolution], [recommendedTech]); [None] is [undefined]. *)
Definition member (key : jsstring) (data : JSON) : result (option JSON) :=
  match data with
  | JNull => Throw (Native ReadOfNullish)
  | JObj props => Ok (own_property key props)
  | _ => Ok None
  end.

(** The condition of [v ? a : b]. *)
Definition truthy (v : option JSON) : bool :=
  match v with
  | None | Some JNull => false
  | Some (JBool b) => b
  | Some (JNum x) => negb (PrimFloat.eqb x PrimFloat.zero) && negb (PrimFloat.is_nan x)
  | Some (JStr s) => match s with [] => false | _ => true end
  | Some (JArr _) | Some (JObj _) => true
  end.

(** [escapeHtml(v)] for whatever value reaches it: [unsafe.replace] is a
    function only on a string. *)
Definition escape_value (v : option JSON) : result jsstring :=
  match v with
  | Some (JStr s) => Ok (escapeHtml s)
  | None | Some JNull => Throw (Native ReadOfNullish)
  | Some _ => Throw (Native NotAFunction)
  end.

(** [`<li>${escapeHtml(point)}</li>`] *)
Definition list_item (point : JSON) : result jsstring :=
  let* text := escape_value (Some point) in
  Ok (lit "<li>" ++ text ++ lit "</li>").

(** [v.map(point => ...).join('')]: [map] is there on an array only. *)
Definition map_items (v : option JSON) : result jsstring :=
  match v with
  | Some (JArr items) => map_join list_item items
  | None | Some JNull => Throw (Native ReadOfNullish)
  | Some _ => Throw (Native NotAFunction)
  end.

(** ** Grounding chunks, as the SDK types them *)

Record web_ref : Type := { uri : option jsstring; title : option jsstring }.
Record chunk : Type := { web : option web_ref }.

(** [`${x}`] for a string or [undefined]. *)
Definition to_string (x : option jsstring) : jsstring :=
  match x with
  | Some s => s
  | None => lit "undefined"
  end.

(** [chunk.web.title || chunk.web.uri] *)
Definition link_text (w : web_ref) : option jsstring :=
  match title w with
  | Some (c :: t) => Some (c :: t)
  | _ => uri w
  end.

(** The link of line 166. *)
Definition anchor (href text : jsstring) : jsstring :=
  lit "<li><a href=" ++ dquote ++ href ++
  dquote ++ lit " target=" ++ dquote ++ lit "_blank" ++ dquote ++ lit " rel=" ++
  dquote ++ lit "noopener noreferrer" ++ dquote ++ lit ">" ++ text ++ lit "</a></li>".

Definition chunk_item (c : chunk) : result jsstring :=
  match web c with
  | Some w =>
      let href := to_string (uri w) in
      let* text :=
        match link_text w with
        | Some s => Ok (escapeHtml s)
        | None => Throw (Native ReadOfNullish)
        end in
      Ok (anchor href text)
  | None => Ok []
  end.

Definition sources_open : jsstring :=
  NL ++ lit "    <div class=" ++ dquote ++ lit "result-section sources-section" ++
  dquote ++ lit ">" ++ NL ++ lit "        <h2>Sources</h2>" ++ NL ++
  lit "        <p>This outline was generated using information from the following sources:</p>" ++
  NL ++ lit "        <ul>" ++ NL ++ lit "            ".

Definition sources_close : jsstring :=
  NL ++ lit "        </ul>" ++ NL ++ lit "    </div>" ++ NL ++ lit "    ".

(** [sourcesHtml] of [displayResults] (lines 160-170). *)
Definition sourcesHtml (groundingChunks : option (list chunk)) : result jsstring :=
  match groundingChunks with
  | Some (c :: cs) =>
      let* items := map_join chunk_item (c :: cs) in
      Ok (sources_open ++ items ++ sources_close)
  | _ => Ok []
  end.

Definition painPoints_open : jsstring :=
  NL ++ lit "    <div class=" ++ dquote ++ lit "result-section" ++ dquote ++ lit ">" ++
  NL ++ lit "      <h2>Client's Pain Points</h2>" ++ NL ++ lit "      <ul>" ++
  NL ++ lit "        ".

Definition painPoints_close : jsstring :=
  NL ++ lit "      </ul>" ++ NL ++ lit "    </div>".

Definition solution_open : jsstring :=
  NL ++ lit "    <div class=" ++ dquote ++ lit "result-section" ++ dquote ++ lit ">" ++
  NL ++ lit "        <h2>Proposed Solution</h2>" ++ NL ++ lit "        <p>".

Definition solution_close : jsstring :=
  lit "</p>" ++ NL ++ lit "    </div>" ++ NL ++ lit "    ".

Definition tech_open : jsstring :=
  NL ++ lit "    <div class=" ++ dquote ++ lit "result-section" ++ dquote ++ lit ">" ++
  NL ++ lit "        <h2>Recommended Tech Stack</h2>" ++ NL ++
  lit "        <ul class=" ++ dquote ++ lit "tech-stack" ++ dquote ++ lit ">" ++
  NL ++ lit "            ".

Definition tech_close : jsstring :=
  NL ++ lit "        </ul>" ++ NL ++ lit "    </div>" ++ NL ++ lit "    ".

(** The template of lines 172-177. *)
Definition results_frame (painPoints solution tech sources : jsstring) : jsstring :=
  NL ++ lit "        " ++ painPoints ++ NL ++ lit "        " ++ solution ++
  NL ++ lit "        " ++ tech ++ NL ++ lit "        " ++ sources ++ NL ++ lit "    ".

(** [solutionHtml] (lines 144-149). *)
Definition solutionHtml (data : JSON) : result jsstring :=
  let* v := member (lit "proposedSolution") data in
  if truthy v then
    let* v' := member (lit "proposedSolution") data in
    let* text := escape_value v' in
    Ok (solution_open ++ text ++ solution_close)
  else Ok [].

(** ** The renderer and the controller *)

Section Module.

(** What the host decides and the module does not: the outcome of [v > 0]
    when [v] is a string, an array or an object (ToPrimitive, then
    ToNumber; it can throw), [JSON.parse] ([None] for a SyntaxError), the
    remote model behind [ai.models.generateContent], and the wording of the
    engine's own errors. *)
Variable coerced_gt0 : JSON -> result bool.

(** [w > 0] *)
Definition gt_zero (w : JSON) : result bool :=
  match w with
  | JNull => Ok false
  | JBool b => Ok b
  | JNum x => Ok (PrimFloat.ltb PrimFloat.zero x)
  | _ => coerced_gt0 w
  end.

(** [v?.length > 0] *)
Definition length_gt0 (v : option JSON) : result bool :=
  match v with
  | None | Some JNull => Ok false
  | Some (JStr s) => Ok (match s with [] => false | _ => true end)
  | Some (JArr items) => Ok (match items with [] => false | _ => true end)
  | Some (JObj props) =>
      match own_property (lit "length") props with
      | Some w => gt_zero w
      | None => Ok false
      end
  | Some _ => Ok false
  end.

(** The two list sections: [data.key?.length > 0 ? `...` : ''] with
    [data.key.map(...).join('')] inside. *)
Definition list_section (key open_ close_ : jsstring) (data : JSON) : result jsstring :=
  let* v := member key data in
  let* shown := length_gt0 v in
  if shown then
    let* v' := member key data in
    let* items := map_items v' in
    Ok (open_ ++ items ++ close_)
  else Ok [].

Definition painPointsHtml : JSON -> result jsstring :=
  list_section (lit "painPoints") painPoints_open painPoints_close.

Definition techHtml : JSON -> result jsstring :=
  list_section (lit "recommendedTech") tech_open tech_close.

(** [displayResults] up to the assignment: the string that becomes
    [resultsContainer.innerHTML]. *)
Definition results_html (data : JSON) (groundingChunks : option (list chunk)) : result jsstring :=
  let* p := painPointsHtml data in
  let* s := solutionHtml data in
  let* t := techHtml data in
  let* src := sourcesHtml groundingChunks in
  Ok (results_frame p s t src).

Variable JSON_parse : jsstring -> option JSON.
Variable engine_message : native_error -> jsstring.

(** The two requests the module sends, by what varies in them: the
    description inside the summarising prompt of [cleanDescription], and
    the text part ([undefined] if the first answer had no text) sent by
    [getProposalOutline] with the system instruction and the search
    tool. *)
Inductive request : Type :=
| CleanRequest (projectDescription : jsstring)
| OutlineRequest (cleanedDescription : option jsstring).

(** Of a response, what the module reads: [response.text] and
    [response.candidates?.[0]?.groundingMetadata?.groundingChunks]. *)
Record response : Type := {
  text : option jsstring;
  groundingChunks : option (list chunk)
}.

(** A request is taken to settle: it gives a response or throws. *)
Variable generateContent : request -> result response.

(** The page and the module's flag. *)
Record Dom : Type := {
  isLoading : bool;
  generateBtn_disabled : bool;
  loadingIndicator_hidden : bool;
  (* textContent of the <p> inside the loading indicator, if there is one *)
  loading_message : option jsstring;
  results_innerHTML : jsstring;
  results_error : bool;   (* class "error" on the results container *)
  descriptionInput_value : jsstring
}.

Inductive event : Type :=
| Remote (req : request)
| Loading (state : bool).

(** The events that clear the busy flag: [setLoading(false)]. *)
Definition clears_busy (e : event) : bool :=
  match e with
  | Loading false => true
  | _ => false
  end.

Record World : Type := { dom : Dom; trace : list event }.

(** Code that reads and writes the page, calls the model and may throw. *)
Definition M (A : Type) : Type := World -> result A * World.

Definition ret {A : Type} (a : A) : M A := fun w => (Ok a, w).

Definition bind {A B : Type} (m : M A) (k : A -> M B) : M B :=
  fun w =>
    match m w with
    | (Ok a, w') => k a w'
    | (Throw e, w') => (Throw e, w')
    end.

Definition throw {A : Type} (e : exn) : M A := fun w => (Throw e, w).

Definition lift {A : Type} (r : result A) : M A := fun w => (r, w).

Definition try_catch {A : Type} (body : M A) (handler : exn -> M A) : M A :=
  fun w =>
    match body w with
    | (Ok a, w') => (Ok a, w')
    | (Throw e, w') => handler e w'
    end.

Definition try_finally {A : Type} (body : M A) (finalizer : M unit) : M A :=
  fun w =>
    match body w with
    | (r, w') =>
        match finalizer w' with
        | (Ok _, w'') => (r, w'')
        | (Throw e, w'') => (Throw e, w'')
        end
    end.

Definition read {A : Type} (f : Dom -> A) : M A := fun w => (Ok (f (dom w)), w).

Definition write (f : Dom -> Dom) : M unit :=
  fun w => (Ok tt, {| dom := f (dom w); trace := trace w |}).

Definition log (e : event) : M unit :=
  fun w => (Ok tt, {| dom := dom w; trace := trace w ++ [e] |}).

Notation "x <- m ;; k" := (bind m (fun x => k))
  (at level 61, m at next level, right associativity).
Notation "m ;; k" := (bind m (fun _ => k))
  (at level 61, right associativity).

Definition await_generateContent (req : request) : M response :=
  log (Remote req) ;; lift (generateContent req).

(** [cleanDescription] (lines 29-44) *)
Definition cleanDescription (projectDescription : jsstring) : M (option jsstring) :=
  response <- await_generateContent (CleanRequest projectDescription) ;;
  ret (text response).

(** [getProposalOutline] (lines 49-75) *)
Definition getProposalOutline (cleanedDescription : option jsstring) : M response :=
  await_generateContent (OutlineRequest cleanedDescription).

Definition default_loading_message : jsstring :=
  lit "Analyzing description and crafting your outline...".

(** [setLoading] (lines 119-133); [None] for an omitted [message]. *)
Definition setLoading (state : bool) (message : option jsstring) : M unit :=
  let message := match message with Some m => m | None => default_loading_message end in
  log (Loading state) ;;
  write (fun d =>
    {| isLoading := state;
       generateBtn_disabled := state;
       loadingIndicator_hidden := negb state;
       loading_message :=
         match loading_message d with
         | Some _ => Some message
         | None => None
         end;
       results_innerHTML := if state then [] else results_innerHTML d;
       results_error := if state then false else results_error d;
       descriptionInput_value := descriptionInput_value d |}).

Definition set_results (html : jsstring) (error : option bool) : M unit :=
  write (fun d =>
    {| isLoading := isLoading d;
       generateBtn_disabled := generateBtn_disabled d;
       loadingIndicator_hidden := loadingIndicator_hidden d;
       loading_message := loading_message d;
       results_innerHTML := html;
       results_error := match error with Some b => b | None => results_error d end;
       descriptionInput_value := descriptionInput_value d |}).

(** [displayResults] (lines 135-178) *)
Definition displayResults (data : JSON) (groundingChunks : option (list chunk)) : M unit :=
  html <- lift (results_html data groundingChunks) ;;
  set_results html None.

(** [`<p>${escapeHtml(message)}</p>`] *)
Definition error_html (message : jsstring) : jsstring :=
  lit "<p>" ++ escapeHtml message ++ lit "</p>".

(** [displayError] (lines 181-184) *)
Definition displayError (message : jsstring) : M unit :=
  set_results (error_html message) (Some true).

Definition validation_message : jsstring :=
  lit "Please paste a project description first.".

Definition invalid_format_message : jsstring :=
  lit "The AI returned an invalid format. Please try again.".

Definition unknown_error_message : jsstring := lit "An unknown error occurred.".

Definition error_prefix : jsstring :=
  lit "An error occurred while generating the outline: ".

(** [error instanceof Error ? error.message : 'An unknown error occurred.'] *)
Definition errorMessage (error : exn) : jsstring :=
  match error with
  | Native why => engine_message why
  | ErrorObj message => message
  | NotAnError => unknown_error_message
  end.

(** Lines 96-104: the inner [try], where [response.text] is cleaned and
    parsed; whatever is thrown there becomes the invalid-format error. *)
Definition parse_response (r : response) : M JSON :=
  try_catch
    (match text r with
     | None => throw (Native ReadOfNullish)
     | Some t =>
         match JSON_parse (cleanText t) with
         | Some resultJson => ret resultJson
         | None => throw (Native JsonSyntax)
         end
     end)
    (fun parseError => throw (ErrorObj invalid_format_message)).

(** [handleGenerateClick] (lines 78-116), one click run to its end.  At
    its two [await]s nothing else writes the page or the flag: the handler
    is the module's only listener, and a click that arrives meanwhile
    returns at the guard of line 79. *)
Definition handleGenerateClick : M unit :=
  busy <- read isLoading ;;
  if busy then ret tt else
  projectDescription <- read (fun d => trim (descriptionInput_value d)) ;;
  match projectDescription with
  | [] => displayError validation_message
  | _ :: _ =>
      setLoading true (Some (lit "Cleaning project description...")) ;;
      try_finally
        (try_catch
           (cleanedDescription <- cleanDescription projectDescription ;;
            setLoading true (Some (lit "Researching latest AI solutions...")) ;;
            response <- getProposalOutline cleanedDescription ;;
            resultJson <- parse_response response ;;
            displayResults resultJson (groundingChunks response))
           (fun error => displayError (error_prefix ++ errorMessage error)))
        (setLoading false None)
  end.


End Module.

(** ** The outline as the specification types it

    The renderer the specification describes, on fields of the declared
    shapes: [painPoints] and [recommendedTech] lists of strings,
    [proposedSolution] a string.  The theorems compare [results_html] with
    it. *)

Fixpoint strings_of (items : list JSON) : option (list jsstring) :=
  match items with
  | [] => Some []
  | JStr s :: rest => option_map (cons s) (strings_of rest)
  | _ :: _ => None
  end.


(** The text the solution section shows: none for an absent or falsy
    field, the string of a non-empty string; [None] for any other value. *)
Definition text_field (v : option JSON) : option (option jsstring) :=
  match v with
  | Some (JStr (c :: s)) => Some (Some (c :: s))
  | _ => if truthy v then None else Some None
  end.

Definition list_html (open_ close_ : jsstring) (strs : list jsstring) : jsstring :=
  match strs with
  | [] => []
  | _ :: _ =>
      open_ ++ List.concat (map (fun s => lit "<li>" ++ escapeHtml s ++ lit "</li>") strs)
      ++ close_
  end.



(** ** Sample hosts and inputs *)

Definition sample_coercion : JSON -> result bool :=
  fun _ => Throw (Native NotCoercible).

Definition sample_messages (why : native_error) : jsstring :=
  match why with
  | ReadOfNullish => lit "Cannot read properties of null"
  | NotAFunction => lit "data.painPoints.map is not a function"
  | NotCoercible => lit "Cannot convert object to primitive value"
  | JsonSyntax => lit "Unexpected end of JSON input"
  end.

(** The example of the specification: a fenced and a bare
    [{"painPoints":[]}]. *)
Definition painPoints_empty_text : jsstring :=
  lit "{" ++ dquote ++ lit "painPoints" ++ dquote ++ lit ":[]}".

(** [{"painPoints":"abc"}]: a string where a list is declared. *)
Definition painPoints_string_text : jsstring :=
  lit "{" ++ dquote ++ lit "painPoints" ++ dquote ++ lit ":" ++
  dquote ++ lit "abc" ++ dquote ++ lit "}".

Definition painPoints_string : JSON := JObj [(lit "painPoints", JStr (lit "abc"))].

(** [{"painPoints": [], truncated. *)
Definition truncated_text : jsstring :=
  lit "{" ++ dquote ++ lit "painPoints" ++ dquote ++ lit ": [".

(** A parser that knows the texts above. *)
Definition sample_parse (t : jsstring) : option JSON :=
  if str_eqb t painPoints_empty_text then Some (JObj [(lit "painPoints", JArr [])])
  else if str_eqb t painPoints_string_text then Some painPoints_string
  else None.

(** A model that answers the summary request with a summary and the
    outline request with the given text, without citations. *)
Definition sample_model (answer : jsstring) (req : request) : result response :=
  match req with
  | CleanRequest _ => Ok {| text := Some (lit "summary"); groundingChunks := None |}
  | OutlineRequest _ => Ok {| text := Some answer; groundingChunks := None |}
  end.

Definition failing_model (e : exn) (req : request) : result response := Throw e.

(** The page before a click, with this text in the description field. *)
Definition idle_world (description : jsstring) : World :=
  {| dom := {| isLoading := false;
               generateBtn_disabled := false;
               loadingIndicator_hidden := true;
               loading_message := Some default_loading_message;
               results_innerHTML := [];
               results_error := false;
               descriptionInput_value := description |};
     trace := [] |}.

(** The page during a run. *)
Definition busy_world (description : jsstring) : World :=
  {| dom := {| isLoading := true;
               generateBtn_disabled := true;
               loadingIndicator_hidden := false;
               loading_message := Some (lit "Cleaning project description...");
               results_innerHTML := [];
               results_error := false;
               descriptionInput_value := description |};
     trace := [Loading true] |}.

(** A citation whose URI closes the attribute and opens a script. *)
Definition script_uri : jsstring := dquote ++ lit "><script>alert(1)</script>".

Definition script_chunk : chunk :=
  {| web := Some {| uri := Some script_uri; title := None |} |}.

(** The citation of the specification's example: a URI and no title. *)
Definition example_chunk : chunk :=
  {| web := Some {| uri := Some (lit "https://e.com"); title := None |} |}.

(** ** Predicates of the further properties *)

(** The five characters [escapeHtml] rewrites. *)
Definition is_special (c : N) : bool := N.eqb c AMP || is_markup_char c.

(** Every [<] of the text has a character behind it, and that character
    is not [s]: no [<s...] tag starts anywhere in the text. *)
Fixpoint no_s_tag (s : jsstring) : bool :=
  match s with
  | [] => true
  | x :: r =>
      (if N.eqb x LT
       then match r with
            | [] => false
            | y :: _ => negb (N.eqb y 115)
            end
       else true)
      && no_s_tag r
  end.

(** The citation's URI, as written into [href], holds no [<]. *)
Definition href_without_lt (c : chunk) : bool :=
  match web c with
  | Some w => negb (existsb (N.eqb LT) (to_string (uri w)))
  | None => true
  end.

(** A citation with a web reference that has neither a non-empty title
    nor a URI: nothing to show as the link text. *)
Definition no_link_text (c : chunk) : bool :=
  match web c with
  | Some w => match link_text w with Some _ => false | None => true end
  | None => false
  end.

(** The values of a list field that have a positive length of their own
    without being a list of strings: a non-empty string, a list with an
    item that is not a string, an object whose [length] is a positive
    number or [true]. *)
Definition breaks_list (v : JSON) : bool :=
  match v with
  | JStr (_ :: _) => true
  | JArr items => match strings_of items with Some _ => false | None => true end
  | JObj props =>
      match own_property (lit "length") props with
      | Some (JNum x) => PrimFloat.ltb PrimFloat.zero x
      | Some (JBool b) => b
      | _ => false
      end
  | _ => false
  end.

(** A payload that is a boolean, a number, a string or a list. *)
Definition not_an_object (data : JSON) : bool :=
  match data with
  | JBool _ | JNum _ | JStr _ | JArr _ => true
  | JNull | JObj _ => false
  end.

Definition is_remote (e : event) : bool :=
  match e with
  | Remote _ => true
  | Loading _ => false
  end.

(** The button is disabled and the indicator shown exactly while the
    flag is set. *)
Definition controls_follow_flag (d : Dom) : bool :=
  Bool.eqb (generateBtn_disabled d) (isLoading d)
  && Bool.eqb (loadingIndicator_hidden d) (negb (isLoading d)).

(** A model that answers the summary request and fails the outline
    request. *)
Definition half_model (e : exn) (req : request) : result response :=
  match req with
  | CleanRequest _ => Ok {| text := Some (lit "summary"); groundingChunks := None |}
  | OutlineRequest _ => Throw e
  end.

(** A model whose outline answer has no text. *)
Definition textless_model (req : request) : result response :=
  match req with
  | CleanRequest _ => Ok {| text := Some (lit "summary"); groundingChunks := None |}
  | OutlineRequest _ => Ok {| text := None; groundingChunks := None |}
  end.

(** An idle page whose loading indicator has no [<p>] for the caption. *)
Definition captionless_world (description : jsstring) : World :=
  {| dom := {| isLoading := false;
               generateBtn_disabled := false;
               loadingIndicator_hidden := true;
               loading_message := None;
               results_innerHTML := [];
               results_error := false;
               descriptionInput_value := description |};
     trace := [] |}.

(** ** Properties of escapeHtml *)

Section EscapeHtml.

Lemma flat_map_flat_map (A B C : Type) (f : A -> list B) (g : B -> list C) (l : list A) :
  flat_map g (flat_map f l) = flat_map (fun a => flat_map g (f a)) l.
Proof.
  induction l as [|a l IH]; simpl; [reflexivity|].
  rewrite flat_map_app. now rewrite IH.
Qed.

(** The five passes of the source come to one pass that rewrites each
    character on its own. *)
Lemma escapeHtml_one_pass (s : jsstring) :
  escapeHtml s = flat_map escape_char s.
Proof.
  unfold escapeHtml, replace_char.
  rewrite !flat_map_flat_map.
  apply flat_map_ext. intros x. unfold escape_char.
  repeat (cbn [flat_map app]; rewrite ?app_nil_r;
          match goal with
          | |- context [N.eqb x ?c] => destruct (N.eqb_spec x c) as [->|]
          end; [reflexivity|]).
  cbn [flat_map app]. now rewrite ?app_nil_r.
Qed.

Lemma escapeHtml_nil : escapeHtml [] = [].
Proof. reflexivity. Qed.

Lemma escapeHtml_cons (x : N) (s : jsstring) :
  escapeHtml (x :: s) = escape_char x ++ escapeHtml s.
Proof. now rewrite !escapeHtml_one_pass. Qed.

Lemma escapeHtml_app (s t : jsstring) :
  escapeHtml (s ++ t) = escapeHtml s ++ escapeHtml t.
Proof. rewrite !escapeHtml_one_pass. apply flat_map_app. Qed.

(** The case analysis every proof below starts with. *)
Lemma escape_char_cases (x : N) :
  (x = AMP /\ escape_char x = lit "&amp;") \/
  (x = LT /\ escape_char x = lit "&lt;") \/
  (x = GT /\ escape_char x = lit "&gt;") \/
  (x = QUOT /\ escape_char x = lit "&quot;") \/
  (x = APOS /\ escape_char x = lit "&#039;") \/
  (x <> AMP /\ is_markup_char x = false /\ escape_char x = [x]).
Proof.
  unfold escape_char, is_markup_char.
  destruct (N.eqb_spec x AMP) as [->|]; [now left|].
  destruct (N.eqb_spec x LT) as [->|]; [now right; left|].
  destruct (N.eqb_spec x GT) as [->|]; [now right; right; left|].
  destruct (N.eqb_spec x QUOT) as [->|]; [now right; right; right; left|].
  destruct (N.eqb_spec x APOS) as [->|]; [now right; right; right; right; left|].
  now repeat right.
Qed.

Ltac escape_cases x :=
  destruct (escape_char_cases x)
    as [[-> ->]|[[-> ->]|[[-> ->]|[[-> ->]|[[-> ->]|(?Hamp & ?Hmk & ->)]]]]].

Lemma escapeHtml_no_markup (s : jsstring) :
  existsb is_markup_char (escapeHtml s) = false.
Proof.
  induction s as [|x s IH]; [reflexivity|].
  rewrite escapeHtml_cons, existsb_app, IH, orb_false_r.
  escape_cases x; try reflexivity.
  simpl. now rewrite Hmk.
Qed.

Lemma entity_at_other (x : N) (r : jsstring) :
  x <> AMP -> entity_at (x :: r) = None.
Proof.
  intros H. apply N.eqb_neq in H. rewrite N.eqb_sym in H.
  assert (Hs : forall e, starts_with (AMP :: e) (x :: r) = false).
  { intros e. unfold starts_with. cbn [strip_prefix]. now rewrite H. }
  unfold entity_at, entities.
  change (lit "&amp;") with (AMP :: lit "amp;").
  change (lit "&lt;") with (AMP :: lit "lt;").
  change (lit "&gt;") with (AMP :: lit "gt;").
  change (lit "&quot;") with (AMP :: lit "quot;").
  change (lit "&#039;") with (AMP :: lit "#039;").
  cbn [entity_in]. now rewrite !Hs.
Qed.

Lemma unescape_escape (s : jsstring) : unescapeHtml (escapeHtml s) = s.
Proof.
  unfold unescapeHtml.
  induction s as [|x s IH]; [reflexivity|].
  rewrite escapeHtml_cons.
  escape_cases x; try (cbn; now rewrite IH).
  simpl app. simpl unescape_from. rewrite entity_at_other by assumption.
  now rewrite IH.
Qed.

Lemma escapeHtml_injective : injective escapeHtml.
Proof.
  intros s t H. rewrite <- (unescape_escape s), <- (unescape_escape t).
  now rewrite H.
Qed.

Lemma escapeHtml_amp_entities (s : jsstring) :
  every_amp_starts_entity (escapeHtml s) = true.
Proof.
  induction s as [|x s IH]; [reflexivity|].
  rewrite escapeHtml_cons.
  escape_cases x; try (cbn; exact IH).
  simpl app. simpl.
  apply N.eqb_neq in Hamp. rewrite Hamp. exact IH.
Qed.

End EscapeHtml.

(** C10.  For every string [s]: [escapeHtml s] holds none of the characters
    [<], [>], the quotation mark and the apostrophe; each [&] in it starts
    one of the five entities; decoding the entities gives [s] back.  So
    [escapeHtml] is injective.  It is not idempotent: escaping an
    ampersand twice escapes the entity's own ampersand again. *)
Theorem escapeHtml_roundtrip :
  (forall s : jsstring,
      existsb is_markup_char (escapeHtml s) = false /\
      every_amp_starts_entity (escapeHtml s) = true /\
      unescapeHtml (escapeHtml s) = s) /\
  injective escapeHtml /\
  escapeHtml (escapeHtml (lit "&")) = lit "&amp;amp;" /\
  escapeHtml (escapeHtml (lit "&")) <> escapeHtml (lit "&").
Proof.
  split; [|split; [|split]].
  - intros s. split; [apply escapeHtml_no_markup|].
    split; [apply escapeHtml_amp_entities|apply unescape_escape].
  - apply escapeHtml_injective.
  - reflexivity.
  - discriminate.
Qed.

(** ** Properties of the fence clean-up *)

Section Fences.

Lemma strip_prefix_app (p r : jsstring) : strip_prefix p (p ++ r) = Some r.
Proof.
  induction p as [|a p IH]; simpl; [reflexivity|].
  now rewrite N.eqb_refl.
Qed.

Lemma strip_prefix_inv (p s r : jsstring) :
  strip_prefix p s = Some r -> s = p ++ r.
Proof.
  revert s; induction p as [|a p IH]; intros [|b s]; simpl; try congruence.
  destruct (N.eqb_spec a b) as [->|]; [|discriminate].
  intros H. f_equal. now apply IH.
Qed.

Lemma strip_prefix_head (a : N) (p : jsstring) (c : N) (r : jsstring) :
  c <> a -> strip_prefix (a :: p) (c :: r) = None.
Proof.
  intros H. simpl. destruct (N.eqb_spec a c); [congruence|reflexivity].
Qed.

Lemma ws_not_backtick (c : N) : is_ws c = true -> c <> BACKTICK.
Proof. intros H ->. discriminate. Qed.

Lemma plain_not_ws (c : N) : plain_char c = true -> is_ws c = false.
Proof.
  unfold plain_char. destruct (is_ws c); [discriminate|reflexivity].
Qed.

Lemma plain_not_backtick (c : N) : plain_char c = true -> c <> BACKTICK.
Proof.
  unfold plain_char. intros H ->. rewrite andb_comm in H. discriminate.
Qed.

Lemma skip_ws_app_ws (w s : jsstring) :
  forallb is_ws w = true -> skip_ws (w ++ s) = skip_ws s.
Proof.
  induction w as [|c w IH]; simpl; [reflexivity|].
  intros H. apply andb_true_iff in H as [-> H]. now apply IH.
Qed.

Lemma skip_ws_all (w : jsstring) : forallb is_ws w = true -> skip_ws w = [].
Proof.
  intros H. rewrite <- (app_nil_r w). now rewrite skip_ws_app_ws.
Qed.

Lemma skip_ws_length (s : jsstring) : List.length (skip_ws s) <= List.length s.
Proof.
  induction s as [|d r IH]; simpl; [lia|]. destruct (is_ws d); simpl; lia.
Qed.

Lemma ws_run_app (w s : jsstring) :
  forallb is_ws w = true -> skip_ws s = s -> ws_run (w ++ s) = List.length w.
Proof.
  intros Hw Hs. induction w as [|c w IH]; simpl.
  - destruct s as [|c r]; [reflexivity|]. simpl in *.
    destruct (is_ws c) eqn:E; [|reflexivity].
    exfalso. assert (Hl : List.length (skip_ws r) = S (List.length r)) by now rewrite Hs.
    pose proof (skip_ws_length r). lia.
  - simpl in Hw. apply andb_true_iff in Hw as [-> Hw]. now rewrite IH.
Qed.

Lemma forallb_rev (A : Type) (f : A -> bool) (l : list A) :
  forallb f (rev l) = forallb f l.
Proof.
  induction l as [|a l IH]; simpl; [reflexivity|].
  rewrite forallb_app, IH. simpl. rewrite andb_true_r. apply andb_comm.
Qed.

(** A text with plain ends, seen from both ends. *)
Lemma plain_ends_inv (b : jsstring) :
  plain_ends b = true ->
  b = [] \/
  (exists c r, b = c :: r /\ plain_char c = true) /\
  (exists b' z, b = b' ++ [z] /\ plain_char z = true).
Proof.
  destruct b as [|c r]; [now left|]. intros H. right.
  unfold plain_ends in H. apply andb_true_iff in H as [Hc Hz].
  split; [now exists c, r|].
  destruct (@exists_last _ (c :: r)) as (b' & z & E); [discriminate|].
  exists b', z. split; [exact E|]. rewrite E in Hz. now rewrite last_last in Hz.
Qed.

Lemma trim_padded (w1 w2 b : jsstring) :
  forallb is_ws w1 = true -> forallb is_ws w2 = true -> plain_ends b = true ->
  trim (w1 ++ b ++ w2) = b.
Proof.
  intros H1 H2 Hb. unfold trim. rewrite skip_ws_app_ws by assumption.
  destruct (plain_ends_inv _ Hb) as [->|[(c & r & E & Hc) (b' & z & E' & Hz)]].
  - simpl. rewrite (skip_ws_all _ H2). reflexivity.
  - assert (Hs : skip_ws (b ++ w2) = b ++ w2).
    { rewrite E. simpl. now rewrite (plain_not_ws _ Hc). }
    rewrite Hs, rev_app_distr.
    rewrite skip_ws_app_ws by (rewrite forallb_rev; assumption).
    rewrite E', rev_app_distr. simpl. rewrite (plain_not_ws _ Hz).
    change (z :: rev b') with (rev [z] ++ rev b').
    now rewrite <- rev_app_distr, rev_involutive.
Qed.

(** Inside a match the scan only counts down. *)
Lemma replace_fences_skip (a : bool) (k : nat) (s : jsstring) :
  replace_fences a (S k) s = replace_fences false 0 (skipn (S k) s).
Proof.
  revert a s; induction k as [|k IH]; intros a [|x r]; try reflexivity.
  - cbn [replace_fences]. rewrite IH. reflexivity.
Qed.

Lemma replace_fences_match (a : bool) (s : jsstring) (n : nat) :
  fence_match a s = Some n -> 0 < n ->
  replace_fences a 0 s = replace_fences false 0 (skipn n s).
Proof.
  intros H Hn. destruct s as [|x r].
  - now destruct a.
  - destruct n as [|k]; [lia|]. cbn [replace_fences]. rewrite H.
    destruct k; [reflexivity|]. now rewrite replace_fences_skip.
Qed.

Lemma skipn_prefix (p w rest : jsstring) :
  skipn (List.length p + List.length w) (p ++ w ++ rest) = rest.
Proof.
  rewrite app_assoc, <- length_app, skipn_app, skipn_all, Nat.sub_diag.
  reflexivity.
Qed.

(** A match of the second alternative is made of backticks and
    whitespace only. *)
Lemma no_match_plain (z : N) (s : jsstring) :
  In z s -> plain_char z = true -> fence_match false s = None.
Proof.
  intros Hin Hz. unfold fence_match.
  destruct (strip_prefix fence s) as [r|] eqn:E; [|reflexivity].
  destruct (forallb is_ws r) eqn:F; [exfalso|reflexivity].
  apply strip_prefix_inv in E. subst s. apply in_app_or in Hin as [Hin|Hin].
  - assert (z = BACKTICK) by (simpl in Hin; intuition congruence).
    now apply (plain_not_backtick _ Hz).
  - rewrite forallb_forall in F. apply plain_not_ws in Hz.
    rewrite (F _ Hin) in Hz. discriminate.
Qed.

Lemma no_match_ws (c : N) (r : jsstring) (a : bool) :
  is_ws c = true -> fence_match a (c :: r) = None.
Proof.
  intros H. apply ws_not_backtick in H. unfold fence_match, fence_json, fence.
  cbn [app]. rewrite !strip_prefix_head by assumption. now destruct a.
Qed.

Lemma strip_tail_keep (u : jsstring) (z : N) (t : jsstring) :
  plain_char z = true ->
  replace_fences false 0 (u ++ z :: t) = u ++ z :: replace_fences false 0 t.
Proof.
  intros Hz. induction u as [|c u IH]; cbn [app replace_fences].
  - now rewrite (@no_match_plain z (z :: t)) by (simpl; auto).
  - rewrite (@no_match_plain z (c :: u ++ z :: t)) by (simpl; auto using in_elt).
    now rewrite IH.
Qed.

Lemma strip_tail_ws (w t : jsstring) :
  forallb is_ws w = true ->
  replace_fences false 0 (w ++ t) = w ++ replace_fences false 0 t.
Proof.
  induction w as [|c w IH]; [reflexivity|]. cbn [app replace_fences forallb].
  intros H. apply andb_true_iff in H as [Hc H].
  rewrite no_match_ws by assumption. now rewrite IH.
Qed.

Lemma strip_tail_fence (w : jsstring) :
  forallb is_ws w = true -> replace_fences false 0 (fence ++ w) = [].
Proof.
  intros H.
  rewrite (replace_fences_match false (fence ++ w) (List.length fence + List.length w)).
  - rewrite <- (app_nil_r w) at 2. now rewrite skipn_prefix.
  - unfold fence_match. cbn [strip_prefix]. now rewrite strip_prefix_app, H.
  - simpl. lia.
Qed.

Lemma strip_lead (w rest : jsstring) :
  forallb is_ws w = true -> skip_ws rest = rest ->
  replace_fences true 0 (fence_json ++ w ++ rest) = replace_fences false 0 rest.
Proof.
  intros Hw Hr.
  rewrite (replace_fences_match true _ (List.length fence_json + List.length w)).
  - now rewrite skipn_prefix.
  - unfold fence_match. now rewrite strip_prefix_app, ws_run_app.
  - simpl. lia.
Qed.

Lemma replace_no_lead (s : jsstring) :
  strip_prefix fence_json s = None ->
  replace_fences true 0 s = replace_fences false 0 s.
Proof.
  intros H. destruct s as [|x r]; [reflexivity|].
  cbn [replace_fences]. unfold fence_match. now rewrite H.
Qed.

End Fences.

Section FencedBody.

Variables (w1 w2 w3 body : jsstring).
Hypothesis Hw1 : forallb is_ws w1 = true.
Hypothesis Hw2 : forallb is_ws w2 = true.
Hypothesis Hw3 : forallb is_ws w3 = true.
Hypothesis Hbody : plain_ends body = true.

Lemma strip_tail_closing (trail : bool) :
  replace_fences false 0 (if trail then w2 ++ fence ++ w3 else w2) = w2.
Proof.
  destruct trail.
  - now rewrite strip_tail_ws, strip_tail_fence, app_nil_r.
  - rewrite <- (app_nil_r w2) at 1. rewrite strip_tail_ws by assumption.
    apply app_nil_r.
Qed.

Lemma strip_tail_body (trail : bool) :
  replace_fences false 0 (body ++ (if trail then w2 ++ fence ++ w3 else w2))
  = body ++ w2.
Proof.
  destruct (plain_ends_inv _ Hbody) as [->|[_ (b' & z & -> & Hz)]].
  - apply strip_tail_closing.
  - rewrite <- !app_assoc. cbn [app].
    now rewrite strip_tail_keep, strip_tail_closing.
Qed.

Lemma no_lead_here (trail : bool) :
  strip_prefix fence_json (w1 ++ body ++ (if trail then w2 ++ fence ++ w3 else w2))
  = None.
Proof.
  unfold fence_json, fence. cbn [app].
  destruct w1 as [|c w]; cbn [app].
  2:{ simpl in Hw1. apply andb_true_iff in Hw1 as [Hc _].
      apply strip_prefix_head. now apply ws_not_backtick. }
  destruct (plain_ends_inv _ Hbody) as [->|[(c & r & -> & Hc) _]]; cbn [app].
  2:{ apply strip_prefix_head. now apply plain_not_backtick. }
  assert (Hws : forall c w, forallb is_ws (c :: w) = true ->
                forall p t, strip_prefix (BACKTICK :: p) ((c :: w) ++ t) = None).
  { intros c w H p t. simpl in H. apply andb_true_iff in H as [Hc _].
    apply strip_prefix_head. now apply ws_not_backtick. }
  destruct trail.
  - destruct w2 as [|c w]; [|now apply Hws]. cbn [app strip_prefix].
    rewrite !N.eqb_refl. destruct w3 as [|c w]; [reflexivity|].
    simpl in Hw3. apply andb_true_iff in Hw3 as [Hc _].
    apply strip_prefix_head. intros ->. discriminate.
  - destruct w2 as [|c w]; [reflexivity|].
    rewrite <- (app_nil_r (c :: w)). now apply Hws.
Qed.

Lemma cleanText_fenced (lead trail : bool) :
  cleanText (fenced lead trail w1 w2 w3 body) = body.
Proof.
  unfold cleanText, fenced. destruct lead.
  - rewrite <- app_assoc.
    destruct (plain_ends_inv _ Hbody) as [E|[(c & r & E & Hc) _]].
    + rewrite E. cbn [app]. destruct trail.
      * rewrite (app_assoc w1 w2), strip_lead, strip_tail_fence; try assumption.
        -- reflexivity.
        -- now rewrite forallb_app, Hw1, Hw2.
        -- reflexivity.
      * rewrite <- (app_nil_r w2), (app_assoc w1 w2), strip_lead.
        -- reflexivity.
        -- now rewrite forallb_app, Hw1, Hw2.
        -- reflexivity.
    + rewrite strip_lead, strip_tail_body; try assumption.
      * now apply (trim_padded []).
      * rewrite E. cbn [app skip_ws]. now rewrite (plain_not_ws _ Hc).
  - rewrite replace_no_lead by apply no_lead_here.
    rewrite strip_tail_ws, strip_tail_body by assumption.
    now apply trim_padded.
Qed.

End FencedBody.

Lemma cleanText_plain (body : jsstring) :
  plain_ends body = true -> cleanText body = body.
Proof.
  intros H.
  pose proof (cleanText_fenced [] [] [] body eq_refl eq_refl eq_refl H false false) as E.
  unfold fenced in E. cbn [app] in E. now rewrite app_nil_r in E.
Qed.

(** C2 (amended).  The clean-up removes a leading [```json] with the
    whitespace behind it and a closing [```] with whitespace up to the end
    of the text, then trims.  For every body whose first and last
    character are neither whitespace nor a backtick (any JSON text), with
    or without the opening [```json], with or without the closing [```],
    and with whitespace around the body and behind the closing fence, the
    cleaned text is the body itself: the same text as for the bare body,
    so whatever parser reads them gives the same answer for both, and
    cleaning such a text twice is cleaning it once. *)
Theorem cleanText_fenced_body
    (lead trail : bool) (w1 w2 w3 body : jsstring) :
  forallb is_ws w1 = true -> forallb is_ws w2 = true -> forallb is_ws w3 = true ->
  plain_ends body = true ->
  let text := fenced lead trail w1 w2 w3 body in
  cleanText text = body /\
  cleanText text = cleanText body /\
  cleanText (cleanText text) = cleanText text /\
  forall (A : Type) (parse : jsstring -> A),
    parse (cleanText text) = parse (cleanText body).
Proof.
  intros H1 H2 H3 Hb text.
  assert (E : cleanText text = body) by now apply cleanText_fenced.
  assert (E' : cleanText body = body) by now apply cleanText_plain.
  repeat split.
  - exact E.
  - now rewrite E, E'.
  - now rewrite E, E'.
  - intros A parse. now rewrite E, E'.
Qed.

Lemma cleanText_fenced_body_witness :
  cleanText (fence_json ++ NL ++ painPoints_empty_text ++ NL ++ fence)
  = painPoints_empty_text /\
  cleanText (fence_json ++ NL ++ painPoints_empty_text ++ NL ++ fence)
  = cleanText painPoints_empty_text.
Proof.
  pose proof (cleanText_fenced_body true true NL NL [] painPoints_empty_text
                eq_refl eq_refl eq_refl eq_refl) as H.
  cbv zeta in H. destruct H as (H1 & H2 & _).
  split; [exact H1 | exact H2].
Defined.

(** C2 as stated fails twice.  A bare [```] in front is not removed: the
    first alternative wants [```json], the second one wants the end of the
    text behind the fence.  And the clean-up is not idempotent: a second
    [```json] comes to the front only once the first is gone. *)
Lemma cleanText_counterexample :
  cleanText (fence ++ NL ++ lit "{}" ++ NL ++ fence) = fence ++ NL ++ lit "{}" /\
  cleanText (fence ++ NL ++ lit "{}" ++ NL ++ fence) <> cleanText (lit "{}") /\
  cleanText (cleanText (fence_json ++ fence_json ++ lit "{}"))
  <> cleanText (fence_json ++ fence_json ++ lit "{}").
Proof.
  split; [reflexivity|]. split; discriminate.
Qed.

(** ** The renderer *)

Section Substrings.

Lemma strip_prefix_app_l (p s r t : jsstring) :
  strip_prefix p s = Some r -> strip_prefix p (s ++ t) = Some (r ++ t).
Proof.
  revert s r; induction p as [|a p IH]; intros s r; simpl.
  - intros H. now injection H as ->.
  - destruct s as [|b s]; simpl; [discriminate|].
    destruct (N.eqb a b); [apply IH|discriminate].
Qed.

Lemma starts_with_app_l (p s t : jsstring) :
  starts_with p s = true -> starts_with p (s ++ t) = true.
Proof.
  unfold starts_with. destruct (strip_prefix p s) as [r|] eqn:E; [|discriminate].
  now rewrite (strip_prefix_app_l _ _ _ t E).
Qed.

Lemma includes_app_l (p s t : jsstring) :
  includes p s = true -> includes p (s ++ t) = true.
Proof.
  induction s as [|a s IH]; simpl.
  - rewrite orb_false_r. intros H.
    apply (starts_with_app_l p [] t) in H. simpl in H.
    destruct t; simpl; now rewrite H.
  - intros H. apply orb_true_iff in H as [H|H].
    + apply (starts_with_app_l p (a :: s) t) in H. simpl in H. now rewrite H.
    + rewrite IH by assumption. apply orb_true_r.
Qed.

Lemma includes_app_r (p s t : jsstring) :
  includes p t = true -> includes p (s ++ t) = true.
Proof.
  intros H. induction s as [|a s IH]; simpl; [assumption|].
  rewrite IH. apply orb_true_r.
Qed.

Lemma includes_self (p t : jsstring) : includes p (p ++ t) = true.
Proof.
  assert (H : starts_with p (p ++ t) = true).
  { unfold starts_with. now rewrite strip_prefix_app. }
  destruct (p ++ t); simpl; simpl in H; now rewrite H.
Qed.

Lemma includes_middle (p s t : jsstring) : includes p (s ++ p ++ t) = true.
Proof. apply includes_app_r, includes_self. Qed.

(** A text without [<] holds no tag. *)
Lemma includes_no_lt (p s : jsstring) :
  existsb (N.eqb LT) s = false -> includes (LT :: p) s = false.
Proof.
  induction s as [|a s IH]; cbn [existsb includes]; [reflexivity|].
  intros H. apply orb_false_iff in H as [Ha H].
  rewrite (IH H), orb_false_r. unfold starts_with. cbn [strip_prefix].
  now rewrite Ha.
Qed.

Lemma escapeHtml_no_lt (s : jsstring) : existsb (N.eqb LT) (escapeHtml s) = false.
Proof.
  pose proof (escapeHtml_no_markup s) as H.
  induction (escapeHtml s) as [|a l IH]; cbn [existsb] in *; [reflexivity|].
  apply orb_false_iff in H as [Ha H]. rewrite (IH H), orb_false_r.
  unfold is_markup_char in Ha. repeat (apply orb_false_iff in Ha as [Ha _]).
  rewrite N.eqb_sym. exact Ha.
Qed.

(** Escaped text never holds a script tag. *)
Lemma escapeHtml_no_script (s : jsstring) :
  includes (lit "<script>") (escapeHtml s) = false.
Proof. apply (includes_no_lt (lit "script>")), escapeHtml_no_lt. Qed.

Lemma map_join_includes (A : Type) (f : A -> result jsstring)
    (xs : list A) (joined : jsstring) (x : A) (i : jsstring) :
  map_join f xs = Ok joined -> In x xs -> f x = Ok i ->
  includes i joined = true.
Proof.
  revert joined; induction xs as [|y xs IH]; intros joined Hj Hin Hx; [easy|].
  simpl in Hj. destruct (f y) as [h|] eqn:Ey; [|discriminate]. simpl in Hj.
  destruct (map_join f xs) as [t|] eqn:Et; [|discriminate]. simpl in Hj.
  injection Hj as <-. destruct Hin as [->|Hin].
  - rewrite Hx in Ey. injection Ey as ->. apply includes_self.
  - apply includes_app_r. now apply IH.
Qed.

End Substrings.

Section Renderer.

Variable coerced_gt0 : JSON -> result bool.


Lemma map_join_not_strings (items : list JSON) :
  strings_of items = None -> exists why, map_join list_item items = Throw (Native why).
Proof.
  induction items as [|x items IH]; simpl; [discriminate|].
  destruct x; simpl; eauto.
  destruct (strings_of items); [discriminate|].
  intros _. destruct (IH eq_refl) as [why ->]. simpl. eauto.
Qed.


(** A non-empty string where a list is declared has a length and no
    [map]. *)
Lemma list_section_string (key open_ close_ : jsstring) (data : JSON)
    (c : N) (s : jsstring) :
  member key data = Ok (Some (JStr (c :: s))) ->
  list_section coerced_gt0 key open_ close_ data = Throw (Native NotAFunction).
Proof. intros Hm. unfold list_section. now rewrite Hm. Qed.

(** A list with an item that is not a string reaches [escapeHtml] with
    it. *)
Lemma list_section_item (key open_ close_ : jsstring) (data : JSON)
    (items : list JSON) :
  member key data = Ok (Some (JArr items)) -> strings_of items = None ->
  exists why,
    list_section coerced_gt0 key open_ close_ data = Throw (Native why).
Proof.
  intros Hm Hs. unfold list_section. rewrite Hm.
  destruct items as [|i items]; [discriminate|].
  cbn [bind_result length_gt0 map_items].
  destruct (map_join_not_strings (i :: items) Hs) as [why E].
  exists why. now rewrite E.
Qed.


Lemma solution_wrong_type (data : JSON) (v : option JSON) :
  member (lit "proposedSolution") data = Ok v -> text_field v = None ->
  solutionHtml data = Throw (Native NotAFunction).
Proof.
  intros Hm Hf. unfold solutionHtml. rewrite Hm. simpl.
  unfold text_field in Hf.
  destruct v as [[|b|x|[|c s]|items|props]|]; simpl in *; try discriminate;
    try reflexivity.
  - now destruct b.
  - now destruct (negb (PrimFloat.eqb x PrimFloat.zero) && negb (PrimFloat.is_nan x)).
Qed.


(** C1, at the failing input.  With an empty outline and one citation
    whose URI is [script_uri], the string that becomes the page holds a
    live [<script>]: line 166 writes the URI into [href] as it is, and
    escapes it only where it is the link text. *)
Theorem href_not_escaped :
  exists html,
    results_html coerced_gt0 (JObj []) (Some [script_chunk]) = Ok html /\
    includes (lit "<script>") html = true /\
    includes (lit "href=" ++ dquote ++ script_uri) html = true /\
    includes (lit "&lt;script&gt;") html = true.
Proof.
  eexists. split; [reflexivity|]. repeat split; vm_compute; reflexivity.
Qed.

End Renderer.

Section Sources.

Lemma link_text_rule (w : web_ref) (text : jsstring) :
  link_text w = Some text ->
  (forall t, title w = Some t -> t <> [] -> text = t) /\
  (title w = None \/ title w = Some [] -> uri w = Some text).
Proof.
  unfold link_text. intros H. split.
  - intros t Ht Hne. rewrite Ht in H. destruct t; congruence.
  - intros [Ht|Ht]; now rewrite Ht in H.
Qed.

Lemma chunk_item_link (c : chunk) (w : web_ref) (i : jsstring) :
  web c = Some w -> chunk_item c = Ok i ->
  exists text,
    link_text w = Some text /\ i = anchor (to_string (uri w)) (escapeHtml text).
Proof.
  unfold chunk_item. intros ->. destruct (link_text w) as [text|]; simpl; [|discriminate].
  intros H. injection H as <-. now exists text.
Qed.

Lemma map_join_each (A : Type) (f : A -> result jsstring) (xs : list A)
    (joined : jsstring) (x : A) :
  map_join f xs = Ok joined -> In x xs -> exists i, f x = Ok i.
Proof.
  revert joined; induction xs as [|y xs IH]; intros joined Hj Hin; [easy|].
  simpl in Hj. destruct (f y) as [h|] eqn:Ey; [|discriminate]. simpl in Hj.
  destruct (map_join f xs) as [t|] eqn:Et; [|discriminate].
  destruct Hin as [->|Hin]; [now exists h|]. now apply (IH t).
Qed.

End Sources.

(** C3 (amended).  When the sources fragment renders, it is empty exactly
    when there is no citation at all ([groundingChunks] undefined or
    empty): one citation of any kind opens the section.  Each citation
    with a web reference is in it as a link to its URI whose text is the
    escaped title, or the escaped URI when there is no title or an empty
    one. *)
Theorem sources_section (chunks : option (list chunk)) (html : jsstring) :
  sourcesHtml chunks = Ok html ->
  (html = [] <-> chunks = None \/ chunks = Some []) /\
  (forall cs c w, chunks = Some cs -> In c cs -> web c = Some w ->
     exists text,
       link_text w = Some text /\
       includes (anchor (to_string (uri w)) (escapeHtml text)) html = true /\
       (forall t, title w = Some t -> t <> [] -> text = t) /\
       (title w = None \/ title w = Some [] -> uri w = Some text) /\
       includes
         (lit "<li><a href=" ++ dquote ++ to_string (uri w) ++ dquote
          ++ lit " target=" ++ dquote ++ lit "_blank" ++ dquote
          ++ lit " rel=" ++ dquote ++ lit "noopener noreferrer" ++ dquote
          ++ lit ">" ++ escapeHtml text ++ lit "</a></li>") html = true).
Proof.
  intros H. split.
  - destruct chunks as [[|c cs]|]; cbn [sourcesHtml] in H.
    + injection H as <-. split; auto.
    + destruct (map_join chunk_item (c :: cs)); [|discriminate].
      cbn [bind_result] in H. injection H as <-. split.
      * intros E. unfold sources_open, NL in E. cbn [app] in E. discriminate.
      * intros [E|E]; discriminate.
    + injection H as <-. split; auto.
  - intros cs c w -> Hin Hw. destruct cs as [|c0 cs]; [easy|].
    unfold sourcesHtml in H.
    destruct (map_join chunk_item (c0 :: cs)) as [items|] eqn:E; [|discriminate].
    simpl in H. injection H as <-.
    destruct (map_join_each _ _ _ _ _ E Hin) as [i Hi].
    destruct (chunk_item_link _ _ _ Hw Hi) as (text & Ht & ->).
    assert (Hinc : includes (anchor (to_string (uri w)) (escapeHtml text))
                     (sources_open ++ items ++ sources_close) = true).
    { apply (includes_app_r _ sources_open), (includes_app_l _ items sources_close).
      exact (map_join_includes _ _ _ _ _ _ E Hin Hi). }
    destruct (link_text_rule w text Ht) as [Hr1 Hr2].
    exists text. split; [exact Ht|]. split; [exact Hinc|].
    split; [exact Hr1|]. split; [exact Hr2|]. exact Hinc.
Qed.

Lemma sources_section_witness :
  sourcesHtml (Some [example_chunk])
  = Ok (sources_open
        ++ (anchor (lit "https://e.com") (escapeHtml (lit "https://e.com")) ++ [])
        ++ sources_close) /\
  exists text,
    link_text {| uri := Some (lit "https://e.com"); title := None |} = Some text /\
    uri {| uri := Some (lit "https://e.com"); title := None |} = Some text.
Proof.
  split; [reflexivity|].
  destruct (sources_section (Some [example_chunk]) _ eq_refl) as [_ H].
  destruct (H [example_chunk] example_chunk _ eq_refl (or_introl eq_refl) eq_refl)
    as (text & Ht & _ & _ & Hu & _).
  exists text. split; [exact Ht|]. apply Hu. now left.
Defined.

(** C3 as stated fails: one citation without a web reference opens the
    sources section, with its heading and an empty list. *)
Lemma sources_without_web_reference :
  web {| web := None |} = None /\
  sourcesHtml (Some [ {| web := None |} ]) = Ok (sources_open ++ sources_close) /\
  sourcesHtml (Some [ {| web := None |} ]) <> Ok [] /\
  includes (lit "<h2>Sources</h2>") (sources_open ++ sources_close) = true.
Proof.
  split; [reflexivity|]. split; [reflexivity|]. split; [discriminate|].
  vm_compute. reflexivity.
Qed.



(** ** The controller *)

Section Controller.

Variable coerced_gt0 : JSON -> result bool.
Variable JSON_parse : jsstring -> option JSON.
Variable engine_message : native_error -> jsstring.
Variable generateContent : request -> result response.

#[local] Notation "'handle'" :=
  (handleGenerateClick coerced_gt0 JSON_parse engine_message generateContent).

#[local] Arguments lit : simpl never.
#[local] Arguments escapeHtml : simpl never.
#[local] Arguments cleanText : simpl never.
#[local] Arguments trim : simpl never.
#[local] Arguments results_html : simpl never.

Ltac enter_handler Hbusy Hd :=
  unfold handleGenerateClick, bind, read; rewrite Hbusy; cbn;
  rewrite Hd; cbn.

Ltac run_handler :=
  unfold try_finally, try_catch, cleanDescription, getProposalOutline,
    parse_response, await_generateContent, displayResults, displayError,
    setLoading, set_results, bind, lift, log, write, ret, throw; cbn.

(** C7.  A click while the busy flag is set does nothing: the handler
    returns at once, the page and the flag are as they were, and no
    request and no [setLoading] is added to the trace. *)
Theorem busy_click_is_noop (w : World) :
  isLoading (dom w) = true -> handle w = (Ok tt, w).
Proof.
  intros H. unfold handleGenerateClick, bind, read. now rewrite H.
Qed.

(** C6.  When the trimmed description is empty the click sends no request
    and calls no [setLoading]: the trace and the busy flag are as before.
    Past the busy guard of line 79 it shows the fixed validation message
    through [displayError] and returns: the page is the paragraph
    [<p>Please paste a project description first.</p>], marked as an
    error. *)
Theorem empty_description_click (w : World) :
  trim (descriptionInput_value (dom w)) = [] ->
  trace (snd (handle w)) = trace w /\
  isLoading (dom (snd (handle w))) = isLoading (dom w) /\
  (isLoading (dom w) = false ->
   fst (handle w) = Ok tt /\
   results_innerHTML (dom (snd (handle w))) = error_html validation_message /\
   results_error (dom (snd (handle w))) = true /\
   results_innerHTML (dom (snd (handle w)))
   = lit "<p>Please paste a project description first.</p>").
Proof.
  intros H. unfold handleGenerateClick, bind, read.
  destruct (isLoading (dom w)) eqn:E; cbn.
  - rewrite E. split; [reflexivity|]. split; [reflexivity|]. discriminate.
  - rewrite H. cbn. split; [reflexivity|]. split; [exact E|].
    intros _. repeat split; reflexivity.
Qed.

(** What the page looks like once a run that entered the busy state is
    over. *)
Lemma handler_exit (w : World) (c : N) (r : jsstring) :
  isLoading (dom w) = false ->
  trim (descriptionInput_value (dom w)) = c :: r ->
  let w' := snd (handle w) in
  fst (handle w) = Ok tt /\
  isLoading (dom w') = false /\
  generateBtn_disabled (dom w') = false /\
  loadingIndicator_hidden (dom w') = true /\
  loading_message (dom w') =
    match loading_message (dom w) with
    | Some _ => Some default_loading_message
    | None => None
    end /\
  filter clears_busy (trace w') = filter clears_busy (trace w) ++ [Loading false] /\
  last (trace w') (Loading true) = Loading false.
Proof.
  intros Hbusy Hd. enter_handler Hbusy Hd. run_handler.
  destruct (generateContent (CleanRequest (c :: r))) as [r1|e1]; cbn.
  2:{ rewrite !filter_app, !last_last. cbn. rewrite !app_nil_r.
      destruct (loading_message (dom w)); repeat split. }
  destruct (generateContent (OutlineRequest (text r1))) as [r2|e2]; cbn.
  2:{ rewrite !filter_app, !last_last. cbn. rewrite !app_nil_r.
      destruct (loading_message (dom w)); repeat split. }
  destruct (text r2) as [t|]; cbn.
  2:{ rewrite !filter_app, !last_last. cbn. rewrite !app_nil_r.
      destruct (loading_message (dom w)); repeat split. }
  destruct (JSON_parse (cleanText t)) as [resultJson|]; cbn.
  2:{ rewrite !filter_app, !last_last. cbn. rewrite !app_nil_r.
      destruct (loading_message (dom w)); repeat split. }
  destruct (results_html coerced_gt0 resultJson (groundingChunks r2)) as [html|e3]; cbn;
    rewrite !filter_app, !last_last; cbn; rewrite !app_nil_r;
    destruct (loading_message (dom w)); repeat split.
Qed.


(** C9.  When the first request (the summariser) fails, the page shows
    the error paragraph with the thrown error's message behind the fixed
    prefix, or the fallback text when what was thrown is not an [Error]:
    [<p>An error occurred while generating the outline: ], then the
    escaped message of the error, or [An unknown error occurred.], then
    [</p>].  The only request of the run is that first one: no outline
    request is sent. *)
Theorem summarizer_failure (w : World) (e : exn) :
  isLoading (dom w) = false ->
  trim (descriptionInput_value (dom w)) <> [] ->
  generateContent (CleanRequest (trim (descriptionInput_value (dom w)))) = Throw e ->
  let w' := snd (handle w) in
  results_innerHTML (dom w') = error_html (error_prefix ++ errorMessage engine_message e) /\
  results_error (dom w') = true /\
  trace w' = trace w ++
    [Loading true; Remote (CleanRequest (trim (descriptionInput_value (dom w))));
     Loading false] /\
  (forall message, e = ErrorObj message -> errorMessage engine_message e = message) /\
  (e = NotAnError -> errorMessage engine_message e = unknown_error_message) /\
  results_innerHTML (dom w')
  = lit "<p>An error occurred while generating the outline: "
    ++ escapeHtml
         match e with
         | ErrorObj message => message
         | NotAnError => lit "An unknown error occurred."
         | Native why => engine_message why
         end
    ++ lit "</p>".
Proof.
  intros Hbusy Hd G w'. subst w'.
  destruct (trim (descriptionInput_value (dom w))) as [|c r] eqn:E; [congruence|].
  enter_handler Hbusy E. run_handler. rewrite G. cbn.
  rewrite <- !app_assoc. cbn.
  repeat split; intros; subst; reflexivity.
Qed.

(** What the page shows after a run whose answer parsed: the rendered
    outline, or the error paragraph when the rendering threw. *)
Lemma render_outcome (w : World) (r1 r2 : response) (t : jsstring) (data : JSON) :
  isLoading (dom w) = false ->
  trim (descriptionInput_value (dom w)) <> [] ->
  generateContent (CleanRequest (trim (descriptionInput_value (dom w)))) = Ok r1 ->
  generateContent (OutlineRequest (text r1)) = Ok r2 ->
  text r2 = Some t ->
  JSON_parse (cleanText t) = Some data ->
  let w' := snd (handle w) in
  match results_html coerced_gt0 data (groundingChunks r2) with
  | Ok html => results_innerHTML (dom w') = html /\ results_error (dom w') = false
  | Throw e =>
      results_innerHTML (dom w') = error_html (error_prefix ++ errorMessage engine_message e)
      /\ results_error (dom w') = true
  end.
Proof.
  intros Hbusy Hd G1 G2 Ht Hp w'. subst w'.
  destruct (trim (descriptionInput_value (dom w))) as [|c r] eqn:E; [congruence|].
  enter_handler Hbusy E. run_handler. rewrite G1. cbn. rewrite G2. cbn.
  rewrite Ht. cbn. rewrite Hp. cbn.
  destruct (results_html coerced_gt0 data (groundingChunks r2)); cbn; now split.
Qed.

(** C5.  When the answer of the outline request, cleaned of its fences and
    trimmed, is not JSON, the handler ends normally, the page shows the
    error paragraph with the module's own invalid-format message (not the
    parser's, and not the fallback of an unknown error), the container is
    marked as an error, and nothing of a results section is on the page:
    the page is [<p>An error occurred while generating the outline: The AI
    returned an invalid format. Please try again.</p>]. *)
Theorem invalid_format_reported (w : World) (r1 r2 : response) (t : jsstring) :
  isLoading (dom w) = false ->
  trim (descriptionInput_value (dom w)) <> [] ->
  generateContent (CleanRequest (trim (descriptionInput_value (dom w)))) = Ok r1 ->
  generateContent (OutlineRequest (text r1)) = Ok r2 ->
  text r2 = Some t ->
  JSON_parse (cleanText t) = None ->
  let w' := snd (handle w) in
  fst (handle w) = Ok tt /\
  results_innerHTML (dom w') = error_html (error_prefix ++ invalid_format_message) /\
  results_error (dom w') = true /\
  includes (lit "result-section") (results_innerHTML (dom w')) = false /\
  invalid_format_message <> unknown_error_message /\
  results_innerHTML (dom w')
  = lit "<p>An error occurred while generating the outline: The AI returned an invalid format. Please try again.</p>".
Proof.
  intros Hbusy Hd G1 G2 Ht Hp w'. subst w'.
  destruct (trim (descriptionInput_value (dom w))) as [|c r] eqn:E; [congruence|].
  enter_handler Hbusy E. run_handler. rewrite G1. cbn. rewrite G2. cbn.
  rewrite Ht. cbn. rewrite Hp. cbn.
  repeat split; try reflexivity. discriminate.
Qed.

End Controller.

(** ** The controller on sample pages *)

Lemma busy_click_is_noop_witness :
  handleGenerateClick sample_coercion sample_parse sample_messages
    (sample_model painPoints_empty_text) (busy_world (lit "app"))
  = (Ok tt, busy_world (lit "app")).
Proof.
  exact (busy_click_is_noop sample_coercion sample_parse sample_messages
           (sample_model painPoints_empty_text) (busy_world (lit "app")) eq_refl).
Defined.

Lemma empty_description_click_witness :
  trim (lit "  ") = [] /\
  trace (snd (handleGenerateClick sample_coercion sample_parse sample_messages
                (sample_model painPoints_empty_text) (idle_world (lit "  "))))
  = [] /\
  results_innerHTML
    (dom (snd (handleGenerateClick sample_coercion sample_parse sample_messages
                 (sample_model painPoints_empty_text) (idle_world (lit "  ")))))
  = lit "<p>Please paste a project description first.</p>".
Proof.
  split; [reflexivity|].
  destruct (empty_description_click sample_coercion sample_parse sample_messages
              (sample_model painPoints_empty_text) (idle_world (lit "  ")) eq_refl)
    as (Ht & _ & Hp).
  split; [exact Ht|]. destruct (Hp eq_refl) as (_ & _ & _ & Hh). exact Hh.
Defined.


Lemma summarizer_failure_witness :
  results_innerHTML
    (dom (snd (handleGenerateClick sample_coercion sample_parse sample_messages
                 (failing_model (ErrorObj (lit "quota exceeded")))
                 (idle_world (lit "app")))))
  = lit "<p>An error occurred while generating the outline: quota exceeded</p>" /\
  trace (snd (handleGenerateClick sample_coercion sample_parse sample_messages
                (failing_model (ErrorObj (lit "quota exceeded")))
                (idle_world (lit "app"))))
  = [Loading true; Remote (CleanRequest (lit "app")); Loading false].
Proof.
  assert (Hd : trim (descriptionInput_value (dom (idle_world (lit "app")))) <> [])
    by (vm_compute; discriminate).
  destruct (summarizer_failure sample_coercion sample_parse sample_messages
              (failing_model (ErrorObj (lit "quota exceeded")))
              (idle_world (lit "app")) (ErrorObj (lit "quota exceeded"))
              eq_refl Hd eq_refl)
    as (_ & _ & Ht & _ & _ & Hh).
  split; [exact Hh | exact Ht].
Defined.

Lemma invalid_format_reported_witness :
  sample_parse (cleanText truncated_text) = None /\
  results_innerHTML
    (dom (snd (handleGenerateClick sample_coercion sample_parse sample_messages
                 (sample_model truncated_text) (idle_world (lit "app")))))
  = lit "<p>An error occurred while generating the outline: The AI returned an invalid format. Please try again.</p>".
Proof.
  split; [reflexivity|].
  assert (Hd : trim (descriptionInput_value (dom (idle_world (lit "app")))) <> [])
    by (vm_compute; discriminate).
  destruct (invalid_format_reported sample_coercion sample_parse sample_messages
              (sample_model truncated_text) (idle_world (lit "app"))
              {| text := Some (lit "summary"); groundingChunks := None |}
              {| text := Some truncated_text; groundingChunks := None |}
              truncated_text eq_refl Hd eq_refl eq_refl eq_refl eq_refl)
    as (_ & _ & _ & _ & _ & Hh).
  exact Hh.
Defined.

(** ** Further properties of escapeHtml *)

Section EscapeMore.

Lemma escape_char_length (x : N) :
  1 <= List.length (escape_char x) /\
  (is_special x = true -> 1 < List.length (escape_char x)) /\
  (is_special x = false -> escape_char x = [x]).
Proof.
  destruct (escape_char_cases x)
    as [[-> ->]|[[-> ->]|[[-> ->]|[[-> ->]|[[-> ->]|(Hamp & Hmk & ->)]]]]];
    try (cbn; repeat split; try lia; discriminate).
  unfold is_special. apply N.eqb_neq in Hamp. rewrite Hamp, Hmk.
  cbn. split; [lia|]. split; [discriminate|reflexivity].
Qed.

Lemma escapeHtml_length (s : jsstring) :
  List.length s <= List.length (escapeHtml s) /\
  (existsb is_special s = true -> List.length s < List.length (escapeHtml s)).
Proof.
  induction s as [|x s [IH1 IH2]]; [split; [reflexivity|discriminate]|].
  rewrite escapeHtml_cons, length_app.
  destruct (escape_char_length x) as (H1 & H2 & _).
  split; [simpl; lia|].
  cbn [existsb]. intros H. apply orb_true_iff in H as [H|H].
  - specialize (H2 H). simpl. lia.
  - specialize (IH2 H). simpl. lia.
Qed.

Lemma escapeHtml_plain (s : jsstring) :
  existsb is_special s = false -> escapeHtml s = s.
Proof.
  induction s as [|x s IH]; [reflexivity|].
  cbn [existsb]. intros H. apply orb_false_iff in H as [Hx H].
  rewrite escapeHtml_cons, (IH H).
  destruct (escape_char_length x) as (_ & _ & H3). now rewrite (H3 Hx).
Qed.

Lemma filter_none (A : Type) (f : A -> bool) (l : list A) :
  existsb f l = false -> filter f l = [].
Proof.
  induction l as [|a l IH]; [reflexivity|]. cbn [existsb filter].
  intros H. apply orb_false_iff in H as [-> H]. now apply IH.
Qed.

End EscapeMore.

(** X1.  [escapeHtml] leaves a text as it is exactly when the text holds
    none of the five characters; it never shortens a text. *)
Theorem escapeHtml_identity_iff (s : jsstring) :
  (escapeHtml s = s <-> existsb is_special s = false) /\
  List.length s <= List.length (escapeHtml s).
Proof.
  destruct (escapeHtml_length s) as [Hle Hlt]. split; [|exact Hle]. split.
  - intros E. destruct (existsb is_special s) eqn:Hs; [|reflexivity].
    specialize (Hlt eq_refl). rewrite E in Hlt. lia.
  - apply escapeHtml_plain.
Qed.

(** X2.  [escapeHtml] goes through concatenation: escaping the pieces and
    joining them is escaping the joined text, for two pieces and for any
    list of them. *)
Theorem escapeHtml_concat :
  (forall s t : jsstring, escapeHtml (s ++ t) = escapeHtml s ++ escapeHtml t) /\
  (forall l : list jsstring,
     escapeHtml (List.concat l) = List.concat (map escapeHtml l)).
Proof.
  split; [apply escapeHtml_app|].
  induction l as [|s l IH]; [reflexivity|].
  cbn [List.concat map]. now rewrite escapeHtml_app, IH.
Qed.

(** X3.  Whatever the message, the markup characters of the error
    paragraph are those of its own [<p>] and [</p>] and no others, and the
    message part reads as the escaped message behind the opening tag. *)
Theorem error_html_markup (message : jsstring) :
  filter is_markup_char (error_html message) = [LT; GT; LT; GT] /\
  includes (lit "<script>") (escapeHtml message) = false /\
  error_html (error_prefix ++ message)
  = lit "<p>" ++ error_prefix ++ escapeHtml message ++ lit "</p>".
Proof.
  split; [|split].
  - unfold error_html. rewrite !filter_app.
    rewrite (filter_none _ _ _ (escapeHtml_no_markup message)). reflexivity.
  - apply escapeHtml_no_script.
  - unfold error_html. rewrite escapeHtml_app.
    rewrite (escapeHtml_plain error_prefix) by reflexivity.
    now rewrite <- app_assoc.
Qed.

(** ** Further properties of trim and of the fence clean-up *)

Section CleanMore.

Lemma skip_ws_split (s : jsstring) :
  exists w, forallb is_ws w = true /\ s = w ++ skip_ws s.
Proof.
  induction s as [|c r (w & Hw & E)]; [now exists []|].
  cbn [skip_ws]. destruct (is_ws c) eqn:Ec.
  - exists (c :: w). cbn [forallb app]. rewrite Ec, Hw. split; [reflexivity|].
    now rewrite <- E.
  - now exists [].
Qed.

Lemma skip_ws_idem (s : jsstring) : skip_ws (skip_ws s) = skip_ws s.
Proof.
  induction s as [|c r IH]; [reflexivity|]. cbn [skip_ws].
  destruct (is_ws c) eqn:Ec; [exact IH|]. cbn [skip_ws]. now rewrite Ec.
Qed.

Lemma skip_ws_fixed_head (c : N) (r : jsstring) :
  skip_ws (c :: r) = c :: r -> is_ws c = false.
Proof.
  cbn [skip_ws]. destruct (is_ws c); [|reflexivity].
  intros E. pose proof (skip_ws_length r) as H. rewrite E in H. simpl in H. lia.
Qed.

Lemma skip_ws_nil (s : jsstring) : skip_ws s = [] -> forallb is_ws s = true.
Proof.
  induction s as [|c r IH]; [reflexivity|]. cbn [skip_ws forallb].
  destruct (is_ws c); [exact IH|discriminate].
Qed.

Lemma trim_decompose (s : jsstring) :
  exists w1 w2,
    forallb is_ws w1 = true /\ forallb is_ws w2 = true /\ s = w1 ++ trim s ++ w2.
Proof.
  destruct (skip_ws_split s) as (w1 & H1 & E1).
  destruct (skip_ws_split (rev (skip_ws s))) as (w' & H' & E').
  exists w1, (rev w'). split; [exact H1|]. split; [now rewrite forallb_rev|].
  unfold trim. rewrite <- rev_app_distr, <- E', rev_involutive. exact E1.
Qed.

Lemma trim_idempotent (s : jsstring) : trim (trim s) = trim s.
Proof.
  unfold trim. set (a := skip_ws s). set (b := skip_ws (rev a)).
  assert (Ha : skip_ws a = a) by apply skip_ws_idem.
  assert (Hb : skip_ws b = b) by apply skip_ws_idem.
  assert (H : skip_ws (rev b) = rev b).
  { destruct (skip_ws_split (rev a)) as (w' & Hw' & E). fold b in E.
    assert (Ea : a = rev b ++ rev w').
    { now rewrite <- rev_app_distr, <- E, rev_involutive. }
    destruct (rev b) as [|c r]; [reflexivity|].
    rewrite Ea in Ha. cbn [app] in Ha. apply skip_ws_fixed_head in Ha.
    cbn [skip_ws]. now rewrite Ha. }
  now rewrite H, rev_involutive, Hb.
Qed.

Lemma trim_nil_iff (s : jsstring) : trim s = [] <-> forallb is_ws s = true.
Proof.
  split.
  - unfold trim. intros E.
    assert (Eb : skip_ws (rev (skip_ws s)) = []).
    { rewrite <- (rev_involutive (skip_ws (rev (skip_ws s)))). now rewrite E. }
    apply skip_ws_nil in Eb. rewrite forallb_rev in Eb.
    apply skip_ws_all in Eb. rewrite skip_ws_idem in Eb. now apply skip_ws_nil.
  - intros H. unfold trim. now rewrite (skip_ws_all _ H).
Qed.

Lemma no_match_head (a : bool) (x : N) (r : jsstring) :
  x <> BACKTICK -> fence_match a (x :: r) = None.
Proof.
  intros H. unfold fence_match, fence_json, fence. cbn [app].
  rewrite !strip_prefix_head by assumption. now destruct a.
Qed.

Lemma replace_no_backtick (a : bool) (s : jsstring) :
  existsb (N.eqb BACKTICK) s = false -> replace_fences a 0 s = s.
Proof.
  revert a; induction s as [|x r IH]; intros a H; [reflexivity|].
  cbn [existsb] in H. apply orb_false_iff in H as [Hx H].
  cbn [replace_fences]. rewrite no_match_head.
  - now rewrite IH.
  - intros ->. unfold BACKTICK in Hx. discriminate.
Qed.

Lemma closing_match_length (s : jsstring) (n : nat) :
  fence_match false s = Some n -> n = List.length s /\ 0 < n.
Proof.
  unfold fence_match. destruct (strip_prefix fence s) as [r|] eqn:E; [|discriminate].
  destruct (forallb is_ws r); [|discriminate].
  intros H. injection H as <-. apply strip_prefix_inv in E. subst s.
  rewrite length_app. simpl. lia.
Qed.

(** Behind the start of the text only a closing fence can match, and it
    runs to the end: what is kept is a prefix. *)
Lemma replace_keeps_prefix (s : jsstring) :
  exists post, s = replace_fences false 0 s ++ post.
Proof.
  induction s as [|x r (post & E)]; [now exists []|].
  destruct (fence_match false (x :: r)) as [n|] eqn:M.
  - destruct (closing_match_length _ _ M) as [-> Hn].
    rewrite (replace_fences_match _ _ _ M Hn), skipn_all. now exists (x :: r).
  - cbn [replace_fences]. rewrite M. exists post. cbn [app]. now rewrite <- E.
Qed.

Lemma replace_keeps_infix (s : jsstring) :
  exists pre post, s = pre ++ replace_fences true 0 s ++ post.
Proof.
  destruct (strip_prefix fence_json s) as [r|] eqn:E.
  - assert (M : fence_match true s = Some (List.length fence_json + ws_run r)).
    { unfold fence_match. now rewrite E. }
    rewrite (replace_fences_match _ _ _ M) by (simpl; lia).
    set (n := List.length fence_json + ws_run r).
    destruct (replace_keeps_prefix (skipn n s)) as (post & Ep).
    exists (firstn n s), post. rewrite <- Ep. symmetry. apply firstn_skipn.
  - rewrite (replace_no_lead _ E).
    destruct (replace_keeps_prefix s) as (post & Ep). now exists [], post.
Qed.

End CleanMore.

(** X4.  The clean-up only cuts at the two ends: the cleaned text is a
    contiguous piece of the response text, so nothing inside it is changed
    or removed, and it is never longer than the response text. *)
Theorem cleanText_infix (text : jsstring) :
  (exists pre post, text = pre ++ cleanText text ++ post) /\
  List.length (cleanText text) <= List.length text.
Proof.
  assert (H : exists pre post, text = pre ++ cleanText text ++ post).
  { destruct (replace_keeps_infix text) as (pre & post & E).
    destruct (trim_decompose (replace_fences true 0 text)) as (w1 & w2 & _ & _ & Et).
    exists (pre ++ w1), (w2 ++ post). unfold cleanText.
    rewrite E at 1. rewrite Et at 1. now rewrite <- !app_assoc. }
  split; [exact H|]. destruct H as (pre & post & E).
  rewrite E at 2. rewrite !length_app. lia.
Qed.

(** X5.  A response text without a backtick is only trimmed. *)
Theorem cleanText_without_backtick (text : jsstring) :
  existsb (N.eqb BACKTICK) text = false -> cleanText text = trim text.
Proof.
  intros H. unfold cleanText. now rewrite replace_no_backtick.
Qed.

Lemma cleanText_without_backtick_witness :
  cleanText (lit "  {}  ") = lit "{}".
Proof.
  rewrite (cleanText_without_backtick (lit "  {}  ") eq_refl). reflexivity.
Defined.

(** X6.  The cleaned text has no whitespace at either end: trimming it
    again changes nothing; and a response text of whitespace only is
    cleaned to the empty text. *)
Theorem cleanText_trimmed (text : jsstring) :
  trim (cleanText text) = cleanText text /\
  (forallb is_ws text = true -> cleanText text = []).
Proof.
  split; [apply trim_idempotent|].
  intros H. unfold cleanText. rewrite replace_no_backtick.
  - now apply trim_nil_iff.
  - clear -H. induction text as [|c r IH]; [reflexivity|].
    cbn [forallb existsb] in *. apply andb_true_iff in H as [Hc H].
    rewrite (IH H), orb_false_r. apply ws_not_backtick in Hc.
    apply N.eqb_neq. congruence.
Qed.

(** ** Further properties of the renderer *)

Section RendererMore.

Variable coerced_gt0 : JSON -> result bool.

Lemma bind_result_ok (A B : Type) (r : result A) (k : A -> result B) (b : B) :
  bind_result r k = Ok b -> exists a, r = Ok a /\ k a = Ok b.
Proof. destruct r as [a|e]; [now exists a|discriminate]. Qed.

Lemma no_s_tag_app (a b : jsstring) :
  no_s_tag a = true -> no_s_tag b = true -> no_s_tag (a ++ b) = true.
Proof.
  intros Ha Hb. induction a as [|x r IH]; [exact Hb|].
  cbn [no_s_tag app] in *. apply andb_true_iff in Ha as [Hx Hr].
  rewrite (IH Hr), andb_true_r.
  destruct (N.eqb x LT); [|reflexivity].
  destruct r as [|y r']; [discriminate|exact Hx].
Qed.

Lemma no_s_tag_no_lt (s : jsstring) :
  existsb (N.eqb LT) s = false -> no_s_tag s = true.
Proof.
  induction s as [|x r IH]; [reflexivity|]. cbn [existsb no_s_tag].
  intros H. apply orb_false_iff in H as [Hx H].
  rewrite N.eqb_sym in Hx. now rewrite Hx, (IH H).
Qed.

Lemma no_s_tag_script (s : jsstring) :
  no_s_tag s = true -> includes (lit "<script>") s = false.
Proof.
  induction s as [|x r IH]; [reflexivity|]. cbn [no_s_tag includes].
  intros H. apply andb_true_iff in H as [Hx H]. rewrite (IH H), orb_false_r.
  change (lit "<script>") with (LT :: 115%N :: lit "cript>").
  unfold starts_with. cbn [strip_prefix].
  rewrite N.eqb_sym. destruct (N.eqb x LT); [|reflexivity].
  destruct r as [|y r']; [reflexivity|].
  rewrite N.eqb_sym. apply negb_true_iff in Hx. now rewrite Hx.
Qed.

Lemma no_s_tag_escaped (s : jsstring) : no_s_tag (escapeHtml s) = true.
Proof. apply no_s_tag_no_lt, escapeHtml_no_lt. Qed.

Lemma map_join_no_s_tag (A : Type) (f : A -> result jsstring) (xs : list A) (joined : jsstring) :
  (forall x h, In x xs -> f x = Ok h -> no_s_tag h = true) ->
  map_join f xs = Ok joined -> no_s_tag joined = true.
Proof.
  revert joined; induction xs as [|x xs IH]; intros joined Hf H; cbn [map_join] in H.
  - now injection H as <-.
  - apply bind_result_ok in H as (h & Eh & H).
    apply bind_result_ok in H as (t & Et & H). injection H as <-.
    apply no_s_tag_app.
    + apply (Hf x); [now left|exact Eh].
    + apply IH; [|exact Et]. intros y k Hy. apply Hf. now right.
Qed.

Lemma list_item_no_s_tag (point : JSON) (h : jsstring) :
  list_item point = Ok h -> no_s_tag h = true.
Proof.
  unfold list_item. intros H. apply bind_result_ok in H as (text & Et & H).
  injection H as <-. destruct point; try discriminate. injection Et as <-.
  apply (no_s_tag_app (lit "<li>")); [reflexivity|].
  apply no_s_tag_app; [apply no_s_tag_escaped|reflexivity].
Qed.

Lemma list_section_no_s_tag (key open_ close_ : jsstring) (data : JSON) (h : jsstring) :
  no_s_tag open_ = true -> no_s_tag close_ = true ->
  list_section coerced_gt0 key open_ close_ data = Ok h -> no_s_tag h = true.
Proof.
  intros Ho Hc H. unfold list_section in H.
  apply bind_result_ok in H as (v & _ & H).
  apply bind_result_ok in H as (shown & _ & H).
  destruct shown; [|now injection H as <-].
  apply bind_result_ok in H as (v' & _ & H).
  apply bind_result_ok in H as (items & Ei & H). injection H as <-.
  apply no_s_tag_app; [exact Ho|]. apply no_s_tag_app; [|exact Hc].
  destruct v' as [[| | | |l|]|]; try discriminate. cbn [map_items] in Ei.
  apply (map_join_no_s_tag _ _ _ _ (fun x k _ => list_item_no_s_tag x k) Ei).
Qed.

Lemma solution_no_s_tag (data : JSON) (h : jsstring) :
  solutionHtml data = Ok h -> no_s_tag h = true.
Proof.
  unfold solutionHtml. intros H. apply bind_result_ok in H as (v & _ & H).
  destruct (truthy v); [|now injection H as <-].
  apply bind_result_ok in H as (v' & _ & H).
  apply bind_result_ok in H as (text & Et & H). injection H as <-.
  destruct v' as [[| | |s| |]|]; try discriminate. injection Et as <-.
  apply (no_s_tag_app solution_open); [reflexivity|].
  apply (no_s_tag_app (escapeHtml s)); [apply no_s_tag_escaped|reflexivity].
Qed.

Lemma chunk_item_no_s_tag (c : chunk) (h : jsstring) :
  href_without_lt c = true -> chunk_item c = Ok h -> no_s_tag h = true.
Proof.
  unfold href_without_lt, chunk_item. destruct (web c) as [w|].
  2:{ intros _ H. now injection H as <-. }
  intros Hh H. apply bind_result_ok in H as (text & Et & H). injection H as <-.
  destruct (link_text w) as [s|]; [|discriminate]. injection Et as <-.
  apply negb_true_iff, no_s_tag_no_lt in Hh. unfold anchor.
  repeat (apply no_s_tag_app;
          [first [reflexivity | exact Hh | apply no_s_tag_escaped]|]).
  reflexivity.
Qed.

Lemma sources_no_s_tag (chunks : option (list chunk)) (h : jsstring) :
  forallb href_without_lt (match chunks with Some cs => cs | None => [] end) = true ->
  sourcesHtml chunks = Ok h -> no_s_tag h = true.
Proof.
  intros Hs H. destruct chunks as [[|c cs]|]; cbn [sourcesHtml] in H;
    try (now injection H as <-).
  apply bind_result_ok in H as (items & Ei & H). injection H as <-.
  apply (no_s_tag_app sources_open); [reflexivity|].
  apply (no_s_tag_app items); [|reflexivity].
  apply (map_join_no_s_tag _ _ _ _ (fun x k Hx => chunk_item_no_s_tag x k
           (proj1 (forallb_forall _ _) Hs x Hx)) Ei).
Qed.

(** X7.  When no citation's URI holds a [<], a rendering that succeeds
    holds no tag that starts with [<s], so no [<script>]: whatever the
    parsed payload is, its strings reach the page escaped.  (The [href] of
    a citation is the one place a [<] can come from, as C1 shows.) *)
Theorem rendered_page_has_no_script
    (data : JSON) (chunks : option (list chunk)) (html : jsstring) :
  forallb href_without_lt (match chunks with Some cs => cs | None => [] end) = true ->
  results_html coerced_gt0 data chunks = Ok html ->
  no_s_tag html = true /\ includes (lit "<script>") html = false.
Proof.
  intros Hs H.
  assert (Hn : no_s_tag html = true).
  { unfold results_html in H.
    apply bind_result_ok in H as (p & Ep & H).
    apply bind_result_ok in H as (s & Es & H).
    apply bind_result_ok in H as (t & Et & H).
    apply bind_result_ok in H as (src & Esrc & H). injection H as <-.
    apply list_section_no_s_tag in Ep; [|reflexivity|reflexivity].
    apply solution_no_s_tag in Es.
    apply list_section_no_s_tag in Et; [|reflexivity|reflexivity].
    apply (sources_no_s_tag _ _ Hs) in Esrc.
    unfold results_frame.
    repeat (apply no_s_tag_app; [first [reflexivity | assumption]|]).
    reflexivity. }
  split; [exact Hn | now apply no_s_tag_script].
Qed.

Lemma chunks_link_text (cs : list chunk) :
  match map_join chunk_item cs with
  | Ok _ => existsb no_link_text cs = false
  | Throw e => e = Native ReadOfNullish /\ existsb no_link_text cs = true
  end.
Proof.
  induction cs as [|c cs IH]; [reflexivity|]. cbn [map_join existsb].
  unfold chunk_item at 1, no_link_text at 1 3.
  destruct (web c) as [w|]; cbn [bind_result].
  - destruct (link_text w); cbn [bind_result]; [|now split].
    destruct (map_join chunk_item cs); cbn [bind_result orb]; exact IH.
  - destruct (map_join chunk_item cs); cbn [bind_result orb]; exact IH.
Qed.

(** X8.  The sources fragment throws exactly when some citation has a
    web reference with neither a non-empty title nor a URI, and then with
    the TypeError of reading [replace] on [undefined]; otherwise it
    renders. *)
Theorem sources_throw_iff_no_link_text (chunks : option (list chunk)) :
  match sourcesHtml chunks with
  | Ok _ =>
      existsb no_link_text (match chunks with Some cs => cs | None => [] end) = false
  | Throw e =>
      e = Native ReadOfNullish /\
      existsb no_link_text (match chunks with Some cs => cs | None => [] end) = true
  end.
Proof.
  destruct chunks as [[|c cs]|]; try reflexivity. cbn [sourcesHtml].
  pose proof (chunks_link_text (c :: cs)) as H.
  destruct (map_join chunk_item (c :: cs)); exact H.
Qed.

Lemma breaks_list_throws (key open_ close_ : jsstring) (data v : JSON) :
  member key data = Ok (Some v) -> breaks_list v = true ->
  exists why, list_section coerced_gt0 key open_ close_ data = Throw (Native why).
Proof.
  intros Hm Hb. destruct v as [|b|x|[|c s]|items|props]; try discriminate.
  - exists NotAFunction. now apply list_section_string with (c := c) (s := s).
  - apply list_section_item with (items := items); [exact Hm|].
    cbn [breaks_list] in Hb. now destruct (strings_of items).
  - exists NotAFunction. unfold list_section. rewrite Hm.
    cbn [bind_result length_gt0]. cbn [breaks_list] in Hb.
    destruct (own_property (lit "length") props) as [[|b|x| | |]|]; try discriminate;
      cbn [gt_zero bind_result]; now rewrite Hb.
Qed.

(** X9.  One field of the wrong type takes the whole rendering down,
    whatever the other fields and the citations are: a list field that is a
    non-empty string, a list with an item that is not a string, or an
    object with a positive [length]; or a solution that is truthy and not
    a string. *)
Theorem wrong_typed_field_breaks_rendering
    (props : list (jsstring * JSON)) (chunks : option (list chunk)) :
  (exists v, own_property (lit "painPoints") props = Some v /\ breaks_list v = true) \/
  text_field (own_property (lit "proposedSolution") props) = None \/
  (exists v, own_property (lit "recommendedTech") props = Some v /\ breaks_list v = true) ->
  exists e, results_html coerced_gt0 (JObj props) chunks = Throw e.
Proof.
  intros H. unfold results_html, painPointsHtml, techHtml.
  destruct (list_section coerced_gt0 (lit "painPoints") painPoints_open
              painPoints_close (JObj props)) as [p|e] eqn:Ep; [|now exists e].
  cbn [bind_result].
  destruct (solutionHtml (JObj props)) as [s|e] eqn:Es; [|now exists e].
  cbn [bind_result].
  destruct (list_section coerced_gt0 (lit "recommendedTech") tech_open
              tech_close (JObj props)) as [t|e] eqn:Et; [|now exists e].
  exfalso. destruct H as [(v & Hv & Hb)|[Hs|(v & Hv & Hb)]].
  - destruct (breaks_list_throws (lit "painPoints") painPoints_open painPoints_close
                (JObj props) v) as [why E]; [now cbn [member]; rewrite Hv|exact Hb|].
    congruence.
  - rewrite (solution_wrong_type (JObj props) _ eq_refl Hs) in Es. discriminate.
  - destruct (breaks_list_throws (lit "recommendedTech") tech_open tech_close
                (JObj props) v) as [why E]; [now cbn [member]; rewrite Hv|exact Hb|].
    congruence.
Qed.

(** X10.  A parsed payload that is not an object (a boolean, a number, a
    string or a list) renders as a page without outline sections, with the
    sources fragment alone; the payload [null] makes the rendering throw. *)
Theorem non_object_payload (data : JSON) (chunks : option (list chunk)) :
  (not_an_object data = true ->
   results_html coerced_gt0 data chunks
   = match sourcesHtml chunks with
     | Ok src => Ok (results_frame [] [] [] src)
     | Throw e => Throw e
     end) /\
  results_html coerced_gt0 JNull chunks = Throw (Native ReadOfNullish).
Proof.
  split; [|reflexivity].
  intros H. unfold results_html.
  destruct data; try discriminate; cbn; now destruct (sourcesHtml chunks).
Qed.

End RendererMore.

Lemma rendered_page_has_no_script_witness :
  includes (lit "<script>")
    (results_frame
       (list_html painPoints_open painPoints_close [lit "<script>alert(1)</script>"])
       [] [] [])
  = false.
Proof.
  exact (proj2 (rendered_page_has_no_script sample_coercion
           (JObj [(lit "painPoints", JArr [JStr (lit "<script>alert(1)</script>")])])
           None _ eq_refl eq_refl)).
Defined.

Lemma wrong_typed_field_breaks_rendering_witness :
  exists e,
    results_html sample_coercion
      (JObj [(lit "proposedSolution", JStr (lit "S"));
             (lit "recommendedTech", JArr [JStr (lit "X"); JNum 1])])
      (Some [example_chunk])
    = Throw e.
Proof.
  apply wrong_typed_field_breaks_rendering.
  right; right. eexists. split; reflexivity.
Defined.

(** ** Further properties of the controller *)

Section ControllerMore.

Variable coerced_gt0 : JSON -> result bool.
Variable JSON_parse : jsstring -> option JSON.
Variable engine_message : native_error -> jsstring.
Variable generateContent : request -> result response.

#[local] Notation "'handle'" :=
  (handleGenerateClick coerced_gt0 JSON_parse engine_message generateContent).

#[local] Arguments lit : simpl never.
#[local] Arguments escapeHtml : simpl never.
#[local] Arguments cleanText : simpl never.
#[local] Arguments trim : simpl never.
#[local] Arguments results_html : simpl never.

Ltac start_run Hbusy Hd :=
  unfold handleGenerateClick, bind, read; rewrite Hbusy; cbn;
  rewrite Hd; cbn;
  unfold try_finally, try_catch, cleanDescription, getProposalOutline,
    parse_response, await_generateContent, displayResults, displayError,
    setLoading, set_results, bind, lift, log, write, ret, throw; cbn.

(** X11.  For every page and every host the handler returns normally
    (no exception leaves it), leaves the busy flag as it found it, and
    keeps the controls in step with the flag: if the button was disabled
    and the indicator shown exactly when the flag was set, they still
    are. *)
Theorem handler_never_throws (w : World) :
  fst (handle w) = Ok tt /\
  isLoading (dom (snd (handle w))) = isLoading (dom w) /\
  (controls_follow_flag (dom w) = true ->
   controls_follow_flag (dom (snd (handle w))) = true).
Proof.
  destruct (isLoading (dom w)) eqn:Hbusy.
  - unfold handleGenerateClick, bind, read. rewrite Hbusy. cbn.
    now rewrite Hbusy.
  - destruct (trim (descriptionInput_value (dom w))) as [|c r] eqn:Hd.
    + unfold handleGenerateClick, bind, read. rewrite Hbusy. cbn. rewrite Hd. cbn.
      unfold controls_follow_flag. now rewrite Hbusy.
    + destruct (handler_exit coerced_gt0 JSON_parse engine_message generateContent
                  w c r Hbusy Hd) as (H1 & H2 & H3 & H4 & _).
      cbv zeta in H2, H3, H4. split; [exact H1|]. split; [exact H2|].
      intros _. unfold controls_follow_flag. now rewrite H2, H3, H4.
Qed.


(** X13.  A click sends at most two requests, in this order: the
    summary request with the trimmed description, and, only when that one
    was answered, the outline request with the text of the answer.  There
    is no retry. *)
Theorem at_most_two_requests (w : World) :
  exists evs,
    trace (snd (handle w)) = trace w ++ evs /\
    (filter is_remote evs = [] \/
     (exists e,
        generateContent (CleanRequest (trim (descriptionInput_value (dom w)))) = Throw e /\
        filter is_remote evs
        = [Remote (CleanRequest (trim (descriptionInput_value (dom w))))]) \/
     (exists r1,
        generateContent (CleanRequest (trim (descriptionInput_value (dom w)))) = Ok r1 /\
        filter is_remote evs
        = [Remote (CleanRequest (trim (descriptionInput_value (dom w))));
           Remote (OutlineRequest (text r1))])).
Proof.
  destruct (isLoading (dom w)) eqn:Hbusy.
  { exists []. unfold handleGenerateClick, bind, read. rewrite Hbusy. cbn.
    rewrite app_nil_r. auto. }
  destruct (trim (descriptionInput_value (dom w))) as [|c r] eqn:Hd.
  { exists []. unfold handleGenerateClick, bind, read. rewrite Hbusy. cbn.
    rewrite Hd. cbn. rewrite app_nil_r. auto. }
  start_run Hbusy Hd.
  destruct (generateContent (CleanRequest (c :: r))) as [r1|e1] eqn:G1; cbn.
  2:{ eexists. split; [rewrite <- !app_assoc; reflexivity|].
      right; left. exists e1. now split. }
  destruct (generateContent (OutlineRequest (text r1))) as [r2|e2]; cbn.
  2:{ eexists. split; [rewrite <- !app_assoc; reflexivity|].
      right; right. exists r1. now split. }
  destruct (text r2) as [t|]; cbn.
  2:{ eexists. split; [rewrite <- !app_assoc; reflexivity|].
      right; right. exists r1. now split. }
  destruct (JSON_parse (cleanText t)) as [resultJson|]; cbn.
  2:{ eexists. split; [rewrite <- !app_assoc; reflexivity|].
      right; right. exists r1. now split. }
  destruct (results_html coerced_gt0 resultJson (groundingChunks r2)); cbn;
    (eexists; split; [rewrite <- !app_assoc; reflexivity|]);
    right; right; exists r1; now split.
Qed.

(** X14.  When both requests are answered, the cleaned text parses and
    the rendering succeeds, the page holds the rendered outline and no
    error mark, and the run is: enter the busy state, summary request, new
    caption, outline request with the summary's text, leave the busy
    state. *)
Theorem successful_run (w : World) (r1 r2 : response) (t : jsstring)
    (data : JSON) (html : jsstring) :
  isLoading (dom w) = false ->
  trim (descriptionInput_value (dom w)) <> [] ->
  generateContent (CleanRequest (trim (descriptionInput_value (dom w)))) = Ok r1 ->
  generateContent (OutlineRequest (text r1)) = Ok r2 ->
  text r2 = Some t ->
  JSON_parse (cleanText t) = Some data ->
  results_html coerced_gt0 data (groundingChunks r2) = Ok html ->
  results_innerHTML (dom (snd (handle w))) = html /\
  results_error (dom (snd (handle w))) = false /\
  trace (snd (handle w))
  = trace w ++
    [Loading true; Remote (CleanRequest (trim (descriptionInput_value (dom w))));
     Loading true; Remote (OutlineRequest (text r1)); Loading false].
Proof.
  intros Hbusy Hne G1 G2 Ht Hp Hr.
  destruct (trim (descriptionInput_value (dom w))) as [|c r] eqn:Hd; [congruence|].
  start_run Hbusy Hd. rewrite G1. cbn. rewrite G2. cbn. rewrite Ht. cbn.
  rewrite Hp. cbn. rewrite Hr. cbn. rewrite <- !app_assoc. now repeat split.
Qed.

(** X15.  When the outline request fails, the page shows the error
    paragraph with the thrown error's message behind the fixed prefix, no
    outline is rendered, and both requests were sent. *)
Theorem outline_failure (w : World) (r1 : response) (e : exn) :
  isLoading (dom w) = false ->
  trim (descriptionInput_value (dom w)) <> [] ->
  generateContent (CleanRequest (trim (descriptionInput_value (dom w)))) = Ok r1 ->
  generateContent (OutlineRequest (text r1)) = Throw e ->
  results_innerHTML (dom (snd (handle w)))
  = error_html (error_prefix ++ errorMessage engine_message e) /\
  results_error (dom (snd (handle w))) = true /\
  trace (snd (handle w))
  = trace w ++
    [Loading true; Remote (CleanRequest (trim (descriptionInput_value (dom w))));
     Loading true; Remote (OutlineRequest (text r1)); Loading false] /\
  results_innerHTML (dom (snd (handle w)))
  = lit "<p>An error occurred while generating the outline: "
    ++ escapeHtml
         match e with
         | ErrorObj message => message
         | NotAnError => lit "An unknown error occurred."
         | Native why => engine_message why
         end
    ++ lit "</p>".
Proof.
  intros Hbusy Hne G1 G2.
  destruct (trim (descriptionInput_value (dom w))) as [|c r] eqn:Hd; [congruence|].
  start_run Hbusy Hd. rewrite G1. cbn. rewrite G2. cbn.
  rewrite <- !app_assoc. repeat split; reflexivity.
Qed.

(** X16.  An outline answer without text is reported like one that does
    not parse: reading [replace] on [undefined] throws inside the inner
    [try], and the page shows the invalid-format message. *)
Theorem missing_text_is_invalid_format (w : World) (r1 r2 : response) :
  isLoading (dom w) = false ->
  trim (descriptionInput_value (dom w)) <> [] ->
  generateContent (CleanRequest (trim (descriptionInput_value (dom w)))) = Ok r1 ->
  generateContent (OutlineRequest (text r1)) = Ok r2 ->
  text r2 = None ->
  fst (handle w) = Ok tt /\
  results_innerHTML (dom (snd (handle w)))
  = error_html (error_prefix ++ invalid_format_message) /\
  results_error (dom (snd (handle w))) = true /\
  results_innerHTML (dom (snd (handle w)))
  = lit "<p>An error occurred while generating the outline: The AI returned an invalid format. Please try again.</p>".
Proof.
  intros Hbusy Hne G1 G2 Ht.
  destruct (trim (descriptionInput_value (dom w))) as [|c r] eqn:Hd; [congruence|].
  start_run Hbusy Hd. rewrite G1. cbn. rewrite G2. cbn. rewrite Ht. cbn.
  repeat split; reflexivity.
Qed.

(** X17.  When the parsed payload makes [displayResults] throw, nothing
    of the outline reaches the page: it shows the error paragraph with the
    thrown error's message, marked as an error, and the handler still
    returns normally. *)
Theorem render_failure_reported (w : World) (r1 r2 : response) (t : jsstring)
    (data : JSON) (e : exn) :
  isLoading (dom w) = false ->
  trim (descriptionInput_value (dom w)) <> [] ->
  generateContent (CleanRequest (trim (descriptionInput_value (dom w)))) = Ok r1 ->
  generateContent (OutlineRequest (text r1)) = Ok r2 ->
  text r2 = Some t ->
  JSON_parse (cleanText t) = Some data ->
  results_html coerced_gt0 data (groundingChunks r2) = Throw e ->
  fst (handle w) = Ok tt /\
  results_innerHTML (dom (snd (handle w)))
  = error_html (error_prefix ++ errorMessage engine_message e) /\
  results_error (dom (snd (handle w))) = true /\
  results_innerHTML (dom (snd (handle w)))
  = lit "<p>An error occurred while generating the outline: "
    ++ escapeHtml
         match e with
         | ErrorObj message => message
         | NotAnError => lit "An unknown error occurred."
         | Native why => engine_message why
         end
    ++ lit "</p>".
Proof.
  intros Hbusy Hne G1 G2 Ht Hp Hr.
  destruct (trim (descriptionInput_value (dom w))) as [|c r] eqn:Hd; [congruence|].
  start_run Hbusy Hd. rewrite G1. cbn. rewrite G2. cbn. rewrite Ht. cbn.
  rewrite Hp. cbn. rewrite Hr. cbn. repeat split; reflexivity.
Qed.

(** X18.  When the loading indicator has no caption element, the guard
    of line 125 skips the caption: the handler still runs to its end and
    no caption appears. *)
Theorem missing_caption_element (w : World) :
  loading_message (dom w) = None ->
  fst (handle w) = Ok tt /\
  loading_message (dom (snd (handle w))) = None /\
  isLoading (dom (snd (handle w))) = isLoading (dom w).
Proof.
  intros Hc. destruct (isLoading (dom w)) eqn:Hbusy.
  - unfold handleGenerateClick, bind, read. rewrite Hbusy. cbn.
    now rewrite Hbusy.
  - destruct (trim (descriptionInput_value (dom w))) as [|c r] eqn:Hd.
    + unfold handleGenerateClick, bind, read. rewrite Hbusy. cbn. rewrite Hd. cbn.
      now rewrite Hbusy.
    + destruct (handler_exit coerced_gt0 JSON_parse engine_message generateContent
                  w c r Hbusy Hd) as (H1 & H2 & _ & _ & H5 & _).
      cbv zeta in H2, H5. rewrite Hc in H5. now repeat split.
Qed.

End ControllerMore.

(** ** The further properties on sample pages *)


Lemma successful_run_witness :
  results_innerHTML
    (dom (snd (handleGenerateClick sample_coercion sample_parse sample_messages
                 (sample_model painPoints_empty_text) (idle_world (lit "app")))))
  = results_frame [] [] [] [] /\
  results_error
    (dom (snd (handleGenerateClick sample_coercion sample_parse sample_messages
                 (sample_model painPoints_empty_text) (idle_world (lit "app")))))
  = false.
Proof.
  assert (Hd : trim (descriptionInput_value (dom (idle_world (lit "app")))) <> [])
    by (vm_compute; discriminate).
  destruct (successful_run sample_coercion sample_parse sample_messages
              (sample_model painPoints_empty_text) (idle_world (lit "app"))
              {| text := Some (lit "summary"); groundingChunks := None |}
              {| text := Some painPoints_empty_text; groundingChunks := None |}
              painPoints_empty_text (JObj [(lit "painPoints", JArr [])])
              (results_frame [] [] [] [])
              eq_refl Hd eq_refl eq_refl eq_refl eq_refl eq_refl)
    as (Hh & He & _).
  split; [exact Hh | exact He].
Defined.

Lemma outline_failure_witness :
  results_innerHTML
    (dom (snd (handleGenerateClick sample_coercion sample_parse sample_messages
                 (half_model (ErrorObj (lit "quota exceeded")))
                 (idle_world (lit "app")))))
  = error_html (error_prefix ++ lit "quota exceeded").
Proof.
  assert (Hd : trim (descriptionInput_value (dom (idle_world (lit "app")))) <> [])
    by (vm_compute; discriminate).
  destruct (outline_failure sample_coercion sample_parse sample_messages
              (half_model (ErrorObj (lit "quota exceeded")))
              (idle_world (lit "app"))
              {| text := Some (lit "summary"); groundingChunks := None |}
              (ErrorObj (lit "quota exceeded"))
              eq_refl Hd eq_refl eq_refl)
    as (Hh & _).
  exact Hh.
Defined.

Lemma missing_text_is_invalid_format_witness :
  results_innerHTML
    (dom (snd (handleGenerateClick sample_coercion sample_parse sample_messages
                 textless_model (idle_world (lit "app")))))
  = error_html (error_prefix ++ invalid_format_message).
Proof.
  assert (Hd : trim (descriptionInput_value (dom (idle_world (lit "app")))) <> [])
    by (vm_compute; discriminate).
  destruct (missing_text_is_invalid_format sample_coercion sample_parse sample_messages
              textless_model (idle_world (lit "app"))
              {| text := Some (lit "summary"); groundingChunks := None |}
              {| text := None; groundingChunks := None |}
              eq_refl Hd eq_refl eq_refl eq_refl)
    as (_ & Hh & _).
  exact Hh.
Defined.

Lemma render_failure_reported_witness :
  results_innerHTML
    (dom (snd (handleGenerateClick sample_coercion sample_parse sample_messages
                 (sample_model painPoints_string_text) (idle_world (lit "app")))))
  = error_html (error_prefix ++ sample_messages NotAFunction).
Proof.
  assert (Hd : trim (descriptionInput_value (dom (idle_world (lit "app")))) <> [])
    by (vm_compute; discriminate).
  destruct (render_failure_reported sample_coercion sample_parse sample_messages
              (sample_model painPoints_string_text) (idle_world (lit "app"))
              {| text := Some (lit "summary"); groundingChunks := None |}
              {| text := Some painPoints_string_text; groundingChunks := None |}
              painPoints_string_text painPoints_string (Native NotAFunction)
              eq_refl Hd eq_refl eq_refl eq_refl eq_refl eq_refl)
    as (_ & Hh & _).
  exact Hh.
Defined.

Lemma missing_caption_element_witness :
  loading_message
    (dom (snd (handleGenerateClick sample_coercion sample_parse sample_messages
                 (sample_model painPoints_empty_text) (captionless_world (lit "app")))))
  = None.
Proof.
  destruct (missing_caption_element sample_coercion sample_parse sample_messages
              (sample_model painPoints_empty_text) (captionless_world (lit "app"))
              eq_refl)
    as (_ & H & _).
  exact H.
Defined.
